(** * Rent-versus-sell projection: a model of [verify_math.py]

    The script evaluates closed-form financial formulas on Python numbers and
    prints one block of figures per projected year.  Python's [int] and
    [float] values are modelled by the real numbers of the Standard Library,
    that is, by exact arithmetic: rounding, overflow and the special float
    values are outside this model.  Statements about an exact value are
    statements of exact arithmetic; module [B64] evaluates
    [calculate_remaining_balance] on binary64 where rounding decides.  The operations that raise an exception in
    Python ([/] by zero, [**] on a zero base with a negative exponent) and the
    one that leaves the floats ([**] on a negative base with a fractional
    exponent, which yields a [complex] and makes the next comparison raise
    [TypeError]) return [None]. *)

From Stdlib Require Import Reals Lra Lia ZArith List String Bool.
From Stdlib Require Floats.PrimFloat Floats.SpecFloat Floats.FloatOps.
Import ListNotations.

Open Scope R_scope.

(** ** Python arithmetic *)

Module Py.

(** The error monad: [None] is a raised exception. *)
Definition ret {A : Type} (a : A) : option A := Some a.

Definition bind {A B : Type} (m : option A) (k : A -> option B) : option B :=
  match m with
  | Some a => k a
  | None => None
  end.

(** [max(a, b)] keeps its first argument unless the second is strictly
    greater. *)
Definition max (a b : R) : R := if Rlt_dec a b then b else a.

(** [a / b]; raises [ZeroDivisionError] when [b] is zero. *)
Definition div (a b : R) : option R :=
  if Req_dec_T b 0 then None else Some (a / b).

(** [e] is the value of an integer, namely of [up e - 1]. *)
Definition is_integer (e : R) : bool :=
  if Req_dec_T e (IZR (up e - 1)) then true else false.

(** [b ** e].  A positive base is the real power.  A zero base gives 1 at
    exponent 0, 0 at a positive exponent and raises [ZeroDivisionError] at a
    negative one.  A negative base is defined on the floats at integer
    exponents only. *)
Definition pow (b e : R) : option R :=
  if Rlt_dec 0 b then Some (Rpower b e)
  else if Req_dec_T b 0 then
    if Rlt_dec e 0 then None
    else if Req_dec_T e 0 then Some 1
    else Some 0
  else if is_integer e then Some (powerRZ b (up e - 1))
  else None.

End Py.

Declare Scope py_scope.
Delimit Scope py_scope with py.
Notation "x <- m ;; k" := (Py.bind m (fun x => k))
  (at level 61, m at next level, right associativity) : py_scope.
Open Scope py_scope.

(** ** [calculate_remaining_balance] *)

Definition calculate_remaining_balance
    (principal monthly_rate total_months months_paid : R) : option R :=
  if Req_dec_T monthly_rate 0 then
    per_month <- Py.div principal total_months ;;
    Py.ret (principal - per_month * months_paid)
  else
    factor <- Py.pow (1 + monthly_rate) total_months ;;
    paid_factor <- Py.pow (1 + monthly_rate) months_paid ;;
    balance <- Py.div (principal * (factor - paid_factor)) (factor - 1) ;;
    Py.ret (Py.max 0 balance).

(** ** The same function on binary64

    The function once more, on the floats Python computes with, for the
    statements whose truth depends on rounding.  The principal and the rate
    are floats and the months are whole numbers.  Python evaluates [**] on
    floats with the C library's [pow], which is not part of the repository: it
    is taken here as the correctly rounded power, the float nearest to the
    exact value, ties to even. *)

Module B64.
Import PrimFloat SpecFloat FloatOps.

Open Scope float_scope.

(** The float nearest to [m * 2^e]. *)
Definition nearest (m e : Z) : float :=
  SF2Prim (binary_normalize prec emax m e false).

(** [float(z)] of a Python [int]; raises [OverflowError] when no finite float
    is near. *)
Definition of_int (z : Z) : option float :=
  let f := nearest z 0 in
  if is_infinity f then None else Some f.

(** [b^n] on the integers, by repeated squaring. *)
Fixpoint power (b : Z) (n : positive) : Z :=
  match n with
  | xH => b
  | xO half => let h := power b half in (h * h)%Z
  | xI half => let h := power b half in (b * (h * h))%Z
  end.

(** [b ** n] for a float [b] and an [int] [n]: 1 at exponent 0; the rounded
    power of a finite base, [OverflowError] when it is beyond the floats;
    [ZeroDivisionError] for a zero base at a negative exponent. *)
Definition pow (b : float) (n : Z) : option float :=
  match n with
  | Z0 => Some 1
  | Zpos k =>
      match Prim2SF b with
      | S754_finite s m e =>
          let f := nearest (power (if s then Zneg m else Zpos m) k) (e * n) in
          if is_infinity f then None else Some f
      | S754_zero s => Some (if s && Pos.testbit k 0 then neg_zero else zero)
      | S754_infinity s =>
          Some (if s && Pos.testbit k 0 then neg_infinity else infinity)
      | S754_nan => Some nan
      end
  | Zneg k =>
      match Prim2SF b with
      | S754_finite s m e =>
          let f :=
            SF2Prim (SFdiv prec emax (S754_finite false 1 0)
                       (S754_finite (s && Pos.testbit k 0)
                          (Z.to_pos (power (Zpos m) k)) (e * Zpos k))) in
          if is_infinity f then None else Some f
      | S754_zero s => None
      | S754_infinity s => Some (if s && Pos.testbit k 0 then neg_zero else zero)
      | S754_nan => Some nan
      end
  end.

(** [a / b]; raises [ZeroDivisionError] when [b] is zero. *)
Definition div (a b : float) : option float :=
  if b =? 0 then None else Some (a / b).

(** [max(0, x)] *)
Definition max_zero (x : float) : float := if 0 <? x then x else 0.

Definition calculate_remaining_balance
    (principal monthly_rate : float) (total_months months_paid : Z)
    : option float :=
  if monthly_rate =? 0 then
    months <- of_int total_months ;;
    per_month <- div principal months ;;
    paid <- of_int months_paid ;;
    Py.ret (principal - per_month * paid)
  else
    factor <- pow (1 + monthly_rate) total_months ;;
    paid_factor <- pow (1 + monthly_rate) months_paid ;;
    balance <- div (principal * (factor - paid_factor)) (factor - 1) ;;
    Py.ret (max_zero balance).

End B64.

(** ** The scenario *)

(** The module-level constants of the script.  [elapsed] is the value of
    [months_elapsed(loan_origin_date, now)], which the script obtains from
    [dateutil.relativedelta]; the projection only uses the resulting month
    count. *)
Record Inputs : Type := {
  purchase_price : R;
  original_loan_amount : R;
  interest_rate : R;
  monthly_pi : R;
  monthly_hoa : R;
  monthly_taxes : R;
  monthly_insurance : R;
  monthly_maintenance : R;
  rental_price : R;
  annual_rent_increase : R;
  property_mgmt_fee : R;
  costs_to_rent : R;
  rental_tax_rate : R;
  home_appreciation : R;
  selling_fees : R;
  costs_to_sell : R;
  capital_gains_tax : R;
  investment_return : R;
  years_to_hold : Z;
  is_primary_residence : bool;
  total_loan_months : Z;
  elapsed : Z
}.

(** The values the script is run with. *)
Definition defaults : Inputs := {|
  purchase_price := 400000;
  original_loan_amount := 320000;
  interest_rate := 6.5;
  monthly_pi := 2023;
  monthly_hoa := 150;
  monthly_taxes := 350;
  monthly_insurance := 150;
  monthly_maintenance := 200;
  rental_price := 2800;
  annual_rent_increase := 3;
  property_mgmt_fee := 10;
  costs_to_rent := 5000;
  rental_tax_rate := 22;
  home_appreciation := 3;
  selling_fees := 6;
  costs_to_sell := 10000;
  capital_gains_tax := 15;
  investment_return := 7;
  years_to_hold := 10;
  is_primary_residence := true;
  total_loan_months := 360;
  elapsed := 49
|}.

(** The same scenario with a rent of 4000, which covers the ownership costs
    and the management fee. *)
Definition high_rent : Inputs := {|
  purchase_price := 400000;
  original_loan_amount := 320000;
  interest_rate := 6.5;
  monthly_pi := 2023;
  monthly_hoa := 150;
  monthly_taxes := 350;
  monthly_insurance := 150;
  monthly_maintenance := 200;
  rental_price := 4000;
  annual_rent_increase := 3;
  property_mgmt_fee := 10;
  costs_to_rent := 5000;
  rental_tax_rate := 22;
  home_appreciation := 3;
  selling_fees := 6;
  costs_to_sell := 10000;
  capital_gains_tax := 15;
  investment_return := 7;
  years_to_hold := 10;
  is_primary_residence := true;
  total_loan_months := 360;
  elapsed := 49
|}.

(** Derived values *)
Definition monthly_rate (inp : Inputs) : R := inp.(interest_rate) / 100 / 12.

Definition monthly_ownership_cost (inp : Inputs) : R :=
  inp.(monthly_pi) + inp.(monthly_taxes) + inp.(monthly_insurance)
  + inp.(monthly_hoa) + inp.(monthly_maintenance).

Definition annual_depreciation (inp : Inputs) : R :=
  (inp.(purchase_price) * 0.8) / 27.5.

(** ** The year loop *)

(** The two variables carried from one iteration to the next. *)
Record Accumulators : Type := {
  cumulative_rental_cash_flow : R;
  cumulative_opportunity_cost : R
}.

(** The variables of one iteration, as they stand when the iteration prints
    them; [accumulators] holds the two running totals after the iteration's
    updates. *)
Record YearSnapshot : Type := {
  year : Z;
  future_months : Z;
  home_value : R;
  loan_balance : R;
  equity : R;
  annual_rental_income : R;
  annual_mgmt_fee : R;
  annual_ownership_costs : R;
  gross_rental_profit : R;
  rental_tax : R;
  net_rental_cash_flow : R;
  year_cash_flow : R;
  year_opportunity_cost : R;
  accumulators : Accumulators;
  rental_net_worth : R;
  sale_price : R;
  selling_costs : R;
  net_sale_proceeds : R;
  capital_gain : R;
  capital_gains_tax_owed : R;
  net_after_tax_proceeds : R;
  years_to_invest : Z;
  invested_value : R;
  better : string
}.

(** The state before the loop. *)
Definition initial_accumulators (inp : Inputs) : Accumulators := {|
  cumulative_rental_cash_flow := - inp.(costs_to_rent);
  cumulative_opportunity_cost := 0
|}.

(** The body of [for year in range(0, years_to_hold + 1)], from the state
    [acc] the iteration starts in. *)
Definition year_body (inp : Inputs) (acc : Accumulators) (year : Z)
    : option YearSnapshot :=
  let future_months := (inp.(elapsed) + year * 12)%Z in
  let years_from_purchase := IZR future_months / 12 in
  (* Property values *)
  appreciation <- Py.pow (1 + inp.(home_appreciation) / 100) years_from_purchase ;;
  let home_value := inp.(purchase_price) * appreciation in
  loan_balance <- calculate_remaining_balance inp.(original_loan_amount)
                    (monthly_rate inp) (IZR inp.(total_loan_months))
                    (IZR future_months) ;;
  let equity := home_value - loan_balance in
  (* Rental scenario *)
  rent_growth <- Py.pow (1 + inp.(annual_rent_increase) / 100) (IZR year) ;;
  let current_rent := inp.(rental_price) * rent_growth in
  let annual_rental_income := current_rent * 12 in
  let annual_mgmt_fee := annual_rental_income * (inp.(property_mgmt_fee) / 100) in
  let annual_ownership_costs := monthly_ownership_cost inp * 12 in
  let gross_rental_profit :=
    annual_rental_income - annual_mgmt_fee - annual_ownership_costs in
  let taxable_rental_income := gross_rental_profit - annual_depreciation inp in
  let rental_tax := Py.max 0 (taxable_rental_income * (inp.(rental_tax_rate) / 100)) in
  let net_rental_cash_flow := gross_rental_profit - rental_tax in
  let cumulative_rental_cash_flow1 :=
    if (year =? 0)%Z then acc.(cumulative_rental_cash_flow)
    else acc.(cumulative_rental_cash_flow) + net_rental_cash_flow in
  let year_cash_flow :=
    if (year =? 0)%Z then - inp.(costs_to_rent) else net_rental_cash_flow in
  (* Opportunity cost *)
  let year_opportunity_cost :=
    if (0 <? year)%Z && (if Rlt_dec net_rental_cash_flow 0 then true else false)
    then Rabs net_rental_cash_flow else 0 in
  let cumulative_opportunity_cost1 :=
    if (0 <? year)%Z
    then acc.(cumulative_opportunity_cost) * (1 + inp.(investment_return) / 100)
         + year_opportunity_cost
    else acc.(cumulative_opportunity_cost) in
  let rental_net_worth := equity + cumulative_rental_cash_flow1 in
  (* Sale scenario *)
  let sale_price := home_value in
  let selling_costs := sale_price * (inp.(selling_fees) / 100) + inp.(costs_to_sell) in
  let net_sale_proceeds := sale_price - loan_balance - selling_costs in
  let capital_gain := sale_price - inp.(purchase_price) in
  let capital_gains_tax_owed :=
    if Rgt_dec capital_gain 0 then
      let taxable_gain :=
        if inp.(is_primary_residence) && (year <=? 3)%Z
        then Py.max 0 (capital_gain - 500000)
        else capital_gain in
      taxable_gain * (inp.(capital_gains_tax) / 100)
    else 0 in
  let net_after_tax_proceeds := net_sale_proceeds - capital_gains_tax_owed in
  let years_to_invest := (inp.(years_to_hold) - year)%Z in
  compounding <- Py.pow (1 + inp.(investment_return) / 100) (IZR years_to_invest) ;;
  let invested_value := net_after_tax_proceeds * compounding in
  let better :=
    if Rgt_dec rental_net_worth invested_value
    then "RENT"%string else "SELL"%string in
  Py.ret {|
    year := year;
    future_months := future_months;
    home_value := home_value;
    loan_balance := loan_balance;
    equity := equity;
    annual_rental_income := annual_rental_income;
    annual_mgmt_fee := annual_mgmt_fee;
    annual_ownership_costs := annual_ownership_costs;
    gross_rental_profit := gross_rental_profit;
    rental_tax := rental_tax;
    net_rental_cash_flow := net_rental_cash_flow;
    year_cash_flow := year_cash_flow;
    year_opportunity_cost := year_opportunity_cost;
    accumulators := {|
      cumulative_rental_cash_flow := cumulative_rental_cash_flow1;
      cumulative_opportunity_cost := cumulative_opportunity_cost1
    |};
    rental_net_worth := rental_net_worth;
    sale_price := sale_price;
    selling_costs := selling_costs;
    net_sale_proceeds := net_sale_proceeds;
    capital_gain := capital_gain;
    capital_gains_tax_owed := capital_gains_tax_owed;
    net_after_tax_proceeds := net_after_tax_proceeds;
    years_to_invest := years_to_invest;
    invested_value := invested_value;
    better := better
  |}.

(** [range(lo, hi)] *)
Definition range (lo hi : Z) : list Z :=
  map (fun i => (lo + Z.of_nat i)%Z) (seq 0 (Z.to_nat (hi - lo))).

(** The loop over a list of years: each iteration starts in the state the
    previous one left. *)
Fixpoint year_loop (inp : Inputs) (acc : Accumulators) (years : list Z)
    : option (list YearSnapshot) :=
  match years with
  | [] => Py.ret []
  | year :: rest =>
      s <- year_body inp acc year ;;
      later <- year_loop inp s.(accumulators) rest ;;
      Py.ret (s :: later)
  end.

(** The year-by-year analysis of the script: one snapshot per printed block. *)
Definition projection (inp : Inputs) : option (list YearSnapshot) :=
  year_loop inp (initial_accumulators inp) (range 0 (inp.(years_to_hold) + 1)).

(** ** The figures printed before the loop *)

(** [current_balance]: the balance after the months elapsed so far. *)
Definition current_balance (inp : Inputs) : option R :=
  calculate_remaining_balance inp.(original_loan_amount) (monthly_rate inp)
    (IZR inp.(total_loan_months)) (IZR inp.(elapsed)).

(** [calculated_payment]: the monthly payment of the standard formula
    [M = P * [r(1+r)^n] / [(1+r)^n - 1]], computed without a zero-rate
    case. *)
Definition calculated_payment (inp : Inputs) : option R :=
  factor <- Py.pow (1 + monthly_rate inp) (IZR inp.(total_loan_months)) ;;
  Py.div (inp.(original_loan_amount) * (monthly_rate inp * factor)) (factor - 1).

Definition years_owned (inp : Inputs) : R := IZR inp.(elapsed) / 12.

(** [current_home_value]: the purchase price appreciated over the years
    owned.  [None] also stands for the one case in which this line yields a
    value that is not a float: a negative base at a fractional number of
    years gives a [complex], which the script prints and which makes the
    first later comparison raise. *)
Definition current_home_value (inp : Inputs) : option R :=
  appreciation <- Py.pow (1 + inp.(home_appreciation) / 100) (years_owned inp) ;;
  Py.ret (inp.(purchase_price) * appreciation).

(** ** The sanity checks *)

(** [a > b] and [a < b] as conditions. *)
Definition gtb (a b : R) : bool := if Rgt_dec a b then true else false.
Definition ltb (a b : R) : bool := if Rlt_dec a b then true else false.

(** The outcome of the five checks: [true] where the script prints PASS
    (checks 1 to 4) or POSITIVE CASH FLOW (check 5). *)
Record SanityChecks : Type := {
  loan_balance_decreasing : bool;
  home_value_increasing : bool;
  equity_increasing : bool;
  rent_increasing : bool;
  positive_cash_flow : bool
}.

Definition sanity_checks (inp : Inputs) : option SanityChecks :=
  (* Check 1: Loan balance should decrease over time *)
  bal_year_0 <- calculate_remaining_balance inp.(original_loan_amount)
                  (monthly_rate inp) (IZR inp.(total_loan_months))
                  (IZR inp.(elapsed)) ;;
  bal_year_5 <- calculate_remaining_balance inp.(original_loan_amount)
                  (monthly_rate inp) (IZR inp.(total_loan_months))
                  (IZR (inp.(elapsed) + 60)) ;;
  bal_year_10 <- calculate_remaining_balance inp.(original_loan_amount)
                   (monthly_rate inp) (IZR inp.(total_loan_months))
                   (IZR (inp.(elapsed) + 120)) ;;
  let check_1 := gtb bal_year_0 bal_year_5 && gtb bal_year_5 bal_year_10 in
  (* Check 2: Home value should increase over time *)
  growth_0 <- Py.pow (1 + inp.(home_appreciation) / 100)
                (IZR inp.(elapsed) / 12) ;;
  let hv_year_0 := inp.(purchase_price) * growth_0 in
  growth_5 <- Py.pow (1 + inp.(home_appreciation) / 100)
                (IZR (inp.(elapsed) + 60) / 12) ;;
  let hv_year_5 := inp.(purchase_price) * growth_5 in
  growth_10 <- Py.pow (1 + inp.(home_appreciation) / 100)
                 (IZR (inp.(elapsed) + 120) / 12) ;;
  let hv_year_10 := inp.(purchase_price) * growth_10 in
  let check_2 := ltb hv_year_0 hv_year_5 && ltb hv_year_5 hv_year_10 in
  (* Check 3: Equity should increase over time *)
  let eq_year_0 := hv_year_0 - bal_year_0 in
  let eq_year_5 := hv_year_5 - bal_year_5 in
  let eq_year_10 := hv_year_10 - bal_year_10 in
  let check_3 := ltb eq_year_0 eq_year_5 && ltb eq_year_5 eq_year_10 in
  (* Check 4: Rent should increase over time *)
  let rent_year_0 := inp.(rental_price) in
  rise_5 <- Py.pow (1 + inp.(annual_rent_increase) / 100) 5 ;;
  let rent_year_5 := inp.(rental_price) * rise_5 in
  rise_10 <- Py.pow (1 + inp.(annual_rent_increase) / 100) 10 ;;
  let rent_year_10 := inp.(rental_price) * rise_10 in
  let check_4 := ltb rent_year_0 rent_year_5 && ltb rent_year_5 rent_year_10 in
  (* Check 5: With positive cash flow, renting should build wealth *)
  let year1_rent := inp.(rental_price) * 12 in
  let year1_expenses :=
    monthly_ownership_cost inp * 12 + year1_rent * (inp.(property_mgmt_fee) / 100) in
  let check_5 := gtb year1_rent year1_expenses in
  Py.ret {|
    loan_balance_decreasing := check_1;
    home_value_increasing := check_2;
    equity_increasing := check_3;
    rent_increasing := check_4;
    positive_cash_flow := check_5
  |}.

(** ** The whole script *)

(** What a run prints: the figures of the preamble, one snapshot per year
    and the outcome of the checks. *)
Record Report : Type := {
  printed_balance : R;
  printed_payment : R;
  printed_home_value : R;
  printed_equity : R;
  printed_years : list YearSnapshot;
  printed_checks : SanityChecks
}.

(** The statements of the script in their order; a run that raises returns
    [None], whatever it printed before. *)
Definition script (inp : Inputs) : option Report :=
  balance <- current_balance inp ;;
  payment <- calculated_payment inp ;;
  value <- current_home_value inp ;;
  rows <- projection inp ;;
  checks <- sanity_checks inp ;;
  Py.ret {|
    printed_balance := balance;
    printed_payment := payment;
    printed_home_value := value;
    printed_equity := value - balance;
    printed_years := rows;
    printed_checks := checks
  |}.

(** ** Vocabulary of the statements *)

(** The inputs the model is meant for: percentages that are not negative and
    a loan term of at least one month. *)
Record plausible (inp : Inputs) : Prop := {
  interest_not_negative : 0 <= inp.(interest_rate);
  appreciation_not_negative : 0 <= inp.(home_appreciation);
  rent_increase_not_negative : 0 <= inp.(annual_rent_increase);
  return_not_negative : 0 <= inp.(investment_return);
  term_positive : (0 < inp.(total_loan_months))%Z
}.

(** [each_iteration P acc rows]: every snapshot of [rows] satisfies [P]
    together with the state its iteration started in, which is [acc] for the
    first and the state left by the previous snapshot for the others. *)
Fixpoint each_iteration (P : Accumulators -> YearSnapshot -> Prop)
    (acc : Accumulators) (rows : list YearSnapshot) : Prop :=
  match rows with
  | [] => True
  | s :: later => P acc s /\ each_iteration P s.(accumulators) later
  end.

(** Sum of a list of amounts. *)
Definition total (amounts : list R) : R := fold_right Rplus 0 amounts.

(** The capital-gains rule in the words of the specification: nothing is owed
    on a gain that is not positive; otherwise the taxable gain, which is the
    gain above 500000 for a primary residence sold by year 3 and the whole gain
    in every other case, is multiplied by the rate. *)
Definition spec_capital_gains_tax
    (primary_residence : bool) (year : Z) (gain rate : R) : R :=
  if Rle_dec gain 0 then 0
  else
    let taxable_gain :=
      if primary_residence && (year <=? 3)%Z
      then Rmax 0 (gain - 500000)
      else gain in
    taxable_gain * rate.

(** ** Tactics *)

(** Splits a successful sequence of fallible steps into its steps. *)
Ltac steps H :=
  repeat match type of H with
  | Py.bind ?m _ = Some _ =>
      let v := fresh "v" in
      let E := fresh "E" in
      destruct m as [v | ] eqn:E; [cbn [Py.bind] in H | discriminate H]
  end.

(** Opens an iteration that returned a snapshot, replacing the snapshot by
    the record the iteration built. *)
Ltac open_body H :=
  cbv beta zeta delta [year_body] in H; steps H;
  unfold Py.ret in H; injection H as H; subst;
  cbn [year future_months home_value loan_balance equity annual_rental_income
       annual_mgmt_fee annual_ownership_costs gross_rental_profit rental_tax
       net_rental_cash_flow year_cash_flow year_opportunity_cost accumulators
       rental_net_worth sale_price selling_costs net_sale_proceeds capital_gain
       capital_gains_tax_owed net_after_tax_proceeds years_to_invest
       invested_value better cumulative_rental_cash_flow
       cumulative_opportunity_cost].

(** ** Python arithmetic: basic facts *)

Lemma max_as_Rmax (a b : R) : Py.max a b = Rmax a b.
Proof.
  unfold Py.max, Rmax.
  destruct (Rlt_dec a b), (Rle_dec a b); lra.
Qed.

Lemma max_zero_not_negative (x : R) : 0 <= Py.max 0 x.
Proof. unfold Py.max. destruct (Rlt_dec 0 x); lra. Qed.

Lemma div_defined (a b : R) : b <> 0 -> Py.div a b = Some (a / b).
Proof.
  intros Hb. unfold Py.div.
  destruct (Req_dec_T b 0) as [E | _]; [contradiction | reflexivity].
Qed.

Lemma pow_positive_base (b e : R) : 0 < b -> Py.pow b e = Some (Rpower b e).
Proof.
  intros Hb. unfold Py.pow.
  destruct (Rlt_dec 0 b) as [_ | N]; [reflexivity | contradiction].
Qed.

(** At a positive base and a whole exponent [**] is the integer power. *)
Lemma pow_whole_exponent (b : R) (n : Z) :
  0 < b -> Py.pow b (IZR n) = Some (powerRZ b n).
Proof.
  intros Hb. rewrite pow_positive_base by assumption.
  rewrite powerRZ_Rpower by assumption. reflexivity.
Qed.

Lemma up_whole (n : Z) : up (IZR n) = (n + 1)%Z.
Proof.
  symmetry. apply tech_up; rewrite plus_IZR; lra.
Qed.

Example pow_compound : Py.pow (1 + 1 / 2) 2 = Some (9 / 4).
Proof.
  rewrite (pow_whole_exponent _ 2) by lra.
  f_equal. change (powerRZ (1 + 1 / 2) 2) with ((1 + 1 / 2) * ((1 + 1 / 2) * 1)).
  lra.
Qed.

Example pow_negative_base : Py.pow (-2) 3 = Some (-8).
Proof.
  unfold Py.pow, Py.is_integer.
  destruct (Rlt_dec 0 (-2)) as [L | _]; [lra | ].
  destruct (Req_dec_T (-2) 0) as [E | _]; [lra | ].
  rewrite (up_whole 3).
  destruct (Req_dec_T 3 (IZR (3 + 1 - 1))) as [_ | N].
  - f_equal.
    change (powerRZ (-2) (3 + 1 - 1)) with ((-2) * ((-2) * ((-2) * 1))). lra.
  - exfalso. apply N. reflexivity.
Qed.

Example pow_negative_base_fraction : Py.pow (-2) (1 / 2) = None.
Proof.
  unfold Py.pow, Py.is_integer.
  destruct (Rlt_dec 0 (-2)) as [L | _]; [lra | ].
  destruct (Req_dec_T (-2) 0) as [E | _]; [lra | ].
  replace (up (1 / 2)) with 1%Z by (apply tech_up; lra).
  destruct (Req_dec_T (1 / 2) (IZR (1 - 1))) as [E | _]; [ | reflexivity].
  cbn in E. lra.
Qed.

Example pow_zero_base_negative : Py.pow 0 (-1) = None.
Proof.
  unfold Py.pow.
  destruct (Rlt_dec 0 0) as [L | _]; [lra | ].
  destruct (Req_dec_T 0 0) as [_ | N]; [ | lra].
  destruct (Rlt_dec (-1) 0) as [_ | N]; [reflexivity | lra].
Qed.

Lemma Rpower_above_one (b e : R) : 1 < b -> 0 < e -> 1 < Rpower b e.
Proof.
  intros Hb He.
  rewrite <- (Rpower_O b) by lra.
  apply Rpower_lt; assumption.
Qed.

(** ** [calculate_remaining_balance]: the two branches *)

Section Balance.

Variables principal monthly_rate total_months months_paid : R.

Lemma balance_zero_rate :
  monthly_rate = 0 -> total_months <> 0 ->
  calculate_remaining_balance principal monthly_rate total_months months_paid
  = Some (principal - principal / total_months * months_paid).
Proof.
  intros Hr Hn. unfold calculate_remaining_balance.
  destruct (Req_dec_T monthly_rate 0) as [_ | N]; [ | contradiction].
  rewrite div_defined by assumption. reflexivity.
Qed.

Lemma balance_positive_rate :
  0 < monthly_rate -> 0 < total_months ->
  calculate_remaining_balance principal monthly_rate total_months months_paid
  = Some (Py.max 0
            (principal
             * (Rpower (1 + monthly_rate) total_months
                - Rpower (1 + monthly_rate) months_paid)
             / (Rpower (1 + monthly_rate) total_months - 1))).
Proof.
  intros Hr Hn. unfold calculate_remaining_balance.
  destruct (Req_dec_T monthly_rate 0) as [E | _]; [lra | ].
  rewrite !pow_positive_base by lra. cbn [Py.bind].
  rewrite div_defined; [reflexivity | ].
  pose proof (Rpower_above_one (1 + monthly_rate) total_months). lra.
Qed.

End Balance.

Lemma positive_term (n : Z) : (0 < n)%Z -> 0 < IZR n.
Proof. intros Hn. apply (IZR_lt 0). assumption. Qed.

(** C1, evaluated where it fails: at a zero monthly rate and more months paid
    than the term has, [calculate_remaining_balance] returns a negative
    balance; with principal 100, 10 months in total and 20 months paid it
    returns -100.  The zero-rate branch returns before the clamp [max(0, _)]
    that the other branch applies. *)
Theorem balance_zero_rate_past_term :
  calculate_remaining_balance 100 0 10 20 = Some (-100)
  /\ ~ (0 <= -100).
Proof.
  split; [ | lra].
  rewrite balance_zero_rate by lra.
  f_equal. lra.
Qed.

(** The same at every zero-rate call past the term: the balance returned is
    negative. *)
Lemma balance_zero_rate_negative_past_term (principal months_paid : R) (n : Z) :
  0 < principal -> (0 < n)%Z -> IZR n < months_paid ->
  exists balance,
    calculate_remaining_balance principal 0 (IZR n) months_paid = Some balance
    /\ balance < 0.
Proof.
  intros HP Hn Hp.
  pose proof (positive_term n Hn) as Hn'.
  eexists. split.
  - apply balance_zero_rate; [reflexivity | lra].
  - replace (principal - principal / IZR n * months_paid)
      with (principal * ((IZR n - months_paid) / IZR n)) by (field; lra).
    assert ((IZR n - months_paid) / IZR n < 0).
    { unfold Rdiv. apply Rmult_neg_pos; [lra | ].
      apply Rinv_0_lt_compat. assumption. }
    nra.
Qed.

(** The clamp of the other branch: whenever the monthly rate is positive the
    balance returned is not negative, however many months were paid. *)
Lemma balance_positive_rate_not_negative (principal monthly_rate months_paid : R)
    (n : Z) :
  0 < monthly_rate -> (0 < n)%Z ->
  exists balance,
    calculate_remaining_balance principal monthly_rate (IZR n) months_paid
    = Some balance /\ 0 <= balance.
Proof.
  intros Hr Hn. eexists. split.
  - apply balance_positive_rate; [assumption | apply positive_term; assumption].
  - apply max_zero_not_negative.
Qed.

Lemma max_zero_monotone (x y : R) : x <= y -> Py.max 0 x <= Py.max 0 y.
Proof.
  intros Hxy. unfold Py.max.
  destruct (Rlt_dec 0 x), (Rlt_dec 0 y); lra.
Qed.

Lemma quotient_monotone (a b d : R) : 0 < d -> a <= b -> a / d <= b / d.
Proof.
  intros Hd Hab. unfold Rdiv.
  apply Rmult_le_compat_r; [ | assumption].
  left. apply Rinv_0_lt_compat. assumption.
Qed.

(** C6: for a positive principal, a monthly rate that is not negative and a
    term of a positive whole number of months, the balance never grows with
    the months paid: both calls return, and the balance after [p2] months is
    at most the balance after [p1] months whenever [p1 <= p2]. *)
Theorem balance_monotone (principal monthly_rate p1 p2 : R) (n : Z) :
  0 < principal -> 0 <= monthly_rate -> (0 < n)%Z -> p1 <= p2 ->
  exists b1 b2,
    calculate_remaining_balance principal monthly_rate (IZR n) p1 = Some b1
    /\ calculate_remaining_balance principal monthly_rate (IZR n) p2 = Some b2
    /\ b2 <= b1.
Proof.
  intros HP Hr Hn Hp.
  pose proof (positive_term n Hn) as Hn'.
  destruct (Req_dec_T monthly_rate 0) as [E | N].
  - do 2 eexists. split; [ | split].
    + apply balance_zero_rate; [assumption | lra].
    + apply balance_zero_rate; [assumption | lra].
    + assert (0 < principal / IZR n) by (apply Rdiv_lt_0_compat; assumption).
      nra.
  - assert (0 < monthly_rate) as Hr' by lra.
    do 2 eexists. split; [ | split].
    + apply balance_positive_rate; assumption.
    + apply balance_positive_rate; assumption.
    + apply max_zero_monotone.
      pose proof (Rpower_above_one (1 + monthly_rate) (IZR n)) as HF.
      pose proof (Rle_Rpower (1 + monthly_rate) p1 p2) as HA.
      apply quotient_monotone; [lra | ].
      apply Rmult_le_compat_l; lra.
Qed.

Lemma balance_monotone_witness :
  exists b1 b2,
    calculate_remaining_balance 320000 (6.5 / 100 / 12) (IZR 360) 49 = Some b1
    /\ calculate_remaining_balance 320000 (6.5 / 100 / 12) (IZR 360) 61 = Some b2
    /\ b2 <= b1.
Proof. apply balance_monotone; [lra | lra | lia | lra]. Defined.

(** C7: for a positive principal, a positive monthly rate and a term of a
    positive whole number of months, the balance once the whole term has been
    paid is 0 (in exact arithmetic). *)
Theorem balance_at_full_term (principal monthly_rate : R) (n : Z) :
  0 < principal -> 0 < monthly_rate -> (0 < n)%Z ->
  calculate_remaining_balance principal monthly_rate (IZR n) (IZR n) = Some 0.
Proof.
  intros HP Hr Hn.
  rewrite balance_positive_rate by (try apply positive_term; assumption).
  f_equal.
  replace (Rpower (1 + monthly_rate) (IZR n) - Rpower (1 + monthly_rate) (IZR n))
    with 0 by lra.
  unfold Rdiv. rewrite Rmult_0_r, Rmult_0_l.
  unfold Py.max. destruct (Rlt_dec 0 0); lra.
Qed.

Lemma balance_at_full_term_witness :
  calculate_remaining_balance 320000 (6.5 / 100 / 12) (IZR 360) (IZR 360) = Some 0.
Proof. apply balance_at_full_term; [lra | lra | lia]. Defined.



(** C9: for a positive principal, a monthly rate that is not negative and a
    term of a positive whole number of months, the balance before any month
    is paid is the principal itself, in the zero-rate branch as in the other
    (in exact arithmetic). *)
Theorem balance_at_start (principal monthly_rate : R) (n : Z) :
  0 < principal -> 0 <= monthly_rate -> (0 < n)%Z ->
  calculate_remaining_balance principal monthly_rate (IZR n) 0 = Some principal.
Proof.
  intros HP Hr Hn.
  pose proof (positive_term n Hn) as Hn'.
  destruct (Req_dec_T monthly_rate 0) as [E | N].
  - rewrite balance_zero_rate by (assumption || lra).
    f_equal. ring.
  - rewrite balance_positive_rate by lra.
    pose proof (Rpower_above_one (1 + monthly_rate) (IZR n)) as HF.
    rewrite (Rpower_O (1 + monthly_rate)) by lra.
    replace (principal * (Rpower (1 + monthly_rate) (IZR n) - 1)
             / (Rpower (1 + monthly_rate) (IZR n) - 1))
      with principal by (field; lra).
    f_equal. unfold Py.max. destruct (Rlt_dec 0 principal); lra.
Qed.

Lemma balance_at_start_witness :
  calculate_remaining_balance 320000 (6.5 / 100 / 12) (IZR 360) 0 = Some 320000
  /\ calculate_remaining_balance 320000 0 (IZR 360) 0 = Some 320000.
Proof.
  split; apply balance_at_start; (lra || lia).
Defined.

(** ** The year loop: one iteration *)

Lemma balance_defined (inp : Inputs) (months_paid : R) :
  plausible inp ->
  exists balance,
    calculate_remaining_balance inp.(original_loan_amount) (monthly_rate inp)
      (IZR inp.(total_loan_months)) months_paid = Some balance.
Proof.
  intros [Hi _ _ _ Hn].
  pose proof (positive_term _ Hn) as Hn'.
  destruct (Req_dec_T (monthly_rate inp) 0) as [E | N].
  - eexists. apply balance_zero_rate; [assumption | lra].
  - eexists. apply balance_positive_rate; [ | assumption].
    unfold monthly_rate in *. lra.
Qed.

(** With plausible inputs no iteration raises. *)
Lemma year_body_defined (inp : Inputs) (acc : Accumulators) (y : Z) :
  plausible inp -> exists s, year_body inp acc y = Some s.
Proof.
  intros Hinp.
  destruct (balance_defined inp (IZR (inp.(elapsed) + y * 12)) Hinp) as [b Hb].
  destruct Hinp as [Hi Ha Hr Hv Hn].
  cbv beta zeta delta [year_body].
  rewrite !pow_positive_base by lra.
  rewrite Hb. cbn [Py.bind].
  eexists. reflexivity.
Qed.

Lemma year_body_year (inp : Inputs) (acc : Accumulators) (y : Z) (s : YearSnapshot) :
  year_body inp acc y = Some s -> s.(year) = y.
Proof. intros H. open_body H. reflexivity. Qed.

(** The rent-scenario net worth of an iteration, and what the iteration does
    to the opportunity-cost total. *)
Lemma year_body_rental_net_worth (inp : Inputs) (acc : Accumulators) (y : Z)
    (s : YearSnapshot) :
  year_body inp acc y = Some s ->
  s.(rental_net_worth)
  = s.(equity) + s.(accumulators).(cumulative_rental_cash_flow)
  /\ ((0 < s.(year))%Z ->
      s.(accumulators).(cumulative_opportunity_cost)
      = acc.(cumulative_opportunity_cost) * (1 + inp.(investment_return) / 100)
        + s.(year_opportunity_cost)).
Proof.
  intros H. open_body H. split; [reflexivity | ].
  intros Hy. apply Z.ltb_lt in Hy. rewrite Hy. reflexivity.
Qed.

(** Two iterations for the same year that start with the same cash-flow total
    agree on everything but the opportunity-cost total. *)
Lemma year_body_opportunity_cost_unused (inp : Inputs) (cash c1 c2 : R) (y : Z)
    (s1 s2 : YearSnapshot) :
  year_body inp {| cumulative_rental_cash_flow := cash;
                   cumulative_opportunity_cost := c1 |} y = Some s1 ->
  year_body inp {| cumulative_rental_cash_flow := cash;
                   cumulative_opportunity_cost := c2 |} y = Some s2 ->
  s1.(rental_net_worth) = s2.(rental_net_worth)
  /\ s1.(accumulators).(cumulative_rental_cash_flow)
     = s2.(accumulators).(cumulative_rental_cash_flow).
Proof.
  intros H1 H2.
  cbv beta zeta delta [year_body] in H1, H2. steps H1.
  cbn [Py.bind] in H2.
  unfold Py.ret in H1, H2. injection H1 as H1. injection H2 as H2. subst.
  split; reflexivity.
Qed.

(** The cash flow reported by an iteration and its effect on the cash-flow
    total. *)
Lemma year_body_cash_flow (inp : Inputs) (acc : Accumulators) (y : Z)
    (s : YearSnapshot) :
  year_body inp acc y = Some s ->
  (s.(year) = 0%Z ->
   s.(year_cash_flow) = - inp.(costs_to_rent)
   /\ s.(accumulators).(cumulative_rental_cash_flow)
      = acc.(cumulative_rental_cash_flow))
  /\ (s.(year) <> 0%Z ->
      s.(year_cash_flow) = s.(net_rental_cash_flow)
      /\ s.(accumulators).(cumulative_rental_cash_flow)
         = acc.(cumulative_rental_cash_flow) + s.(net_rental_cash_flow)).
Proof.
  intros H. open_body H. split; intros Hy.
  - subst y. cbn [Z.eqb]. split; reflexivity.
  - apply Z.eqb_neq in Hy. rewrite Hy. split; reflexivity.
Qed.

(** The tax an iteration charges on the sale follows the rule of the
    specification. *)
Lemma year_body_capital_gains_tax (inp : Inputs) (acc : Accumulators) (y : Z)
    (s : YearSnapshot) :
  year_body inp acc y = Some s ->
  s.(capital_gain) = s.(sale_price) - inp.(purchase_price)
  /\ s.(capital_gains_tax_owed)
     = spec_capital_gains_tax inp.(is_primary_residence) s.(year)
         s.(capital_gain) (inp.(capital_gains_tax) / 100).
Proof.
  intros H. open_body H. split; [reflexivity | ].
  unfold spec_capital_gains_tax.
  rewrite max_as_Rmax.
  destruct (Rgt_dec _ 0) as [G | G], (Rle_dec _ 0) as [L | L];
    try reflexivity; lra.
Qed.

Lemma spec_capital_gains_tax_excluded (y : Z) (gain rate : R) :
  (y <= 3)%Z -> 0 < gain < 500000 ->
  spec_capital_gains_tax true y gain rate = 0.
Proof.
  intros Hy Hg. unfold spec_capital_gains_tax.
  destruct (Rle_dec gain 0) as [L | _]; [lra | ].
  apply Z.leb_le in Hy. rewrite Hy. cbn [andb].
  rewrite Rmax_left by lra. ring.
Qed.

(** The recommendation of an iteration. *)
Lemma year_body_better (inp : Inputs) (acc : Accumulators) (y : Z)
    (s : YearSnapshot) :
  year_body inp acc y = Some s ->
  (s.(rental_net_worth) > s.(invested_value) -> s.(better) = "RENT"%string)
  /\ (~ s.(rental_net_worth) > s.(invested_value) -> s.(better) = "SELL"%string).
Proof.
  intros H. open_body H.
  match goal with
  | |- context [if Rgt_dec ?a ?b then "RENT"%string else _] =>
      destruct (Rgt_dec a b) as [G | G]
  end; split; intros G'; solve [reflexivity | contradiction].
Qed.

(** ** The year loop: the whole run *)

Lemma range_from_zero (n : Z) :
  (0 <= n)%Z ->
  range 0 (n + 1) = 0%Z :: map (fun i => Z.of_nat (S i)) (seq 0 (Z.to_nat n)).
Proof.
  intros Hn. unfold range.
  replace (Z.to_nat (n + 1 - 0)) with (S (Z.to_nat n)) by lia.
  cbn [seq map]. f_equal.
  rewrite <- seq_shift, map_map. reflexivity.
Qed.

Lemma range_empty (n : Z) : (n < 0)%Z -> range 0 (n + 1) = [].
Proof.
  intros Hn. unfold range.
  replace (Z.to_nat (n + 1 - 0)) with 0%nat by lia. reflexivity.
Qed.

Section Run.

Variable inp : Inputs.

Lemma year_loop_step (acc : Accumulators) (y : Z) (years : list Z)
    (rows : list YearSnapshot) :
  year_loop inp acc (y :: years) = Some rows ->
  exists s later,
    rows = s :: later
    /\ year_body inp acc y = Some s
    /\ year_loop inp s.(accumulators) years = Some later.
Proof.
  intros H. cbn [year_loop] in H. steps H.
  injection H as <-. exists v, v0. auto.
Qed.

(** With plausible inputs the loop runs to its end. *)
Lemma year_loop_defined (years : list Z) :
  plausible inp ->
  forall acc, exists rows, year_loop inp acc years = Some rows.
Proof.
  intros Hinp. induction years as [ | y years IH]; intros acc.
  - exists []. reflexivity.
  - destruct (year_body_defined inp acc y Hinp) as [s Hs].
    destruct (IH s.(accumulators)) as [later Hlater].
    exists (s :: later). cbn [year_loop].
    rewrite Hs. cbn [Py.bind]. rewrite Hlater. reflexivity.
Qed.

(** One snapshot per year, in the order of the years. *)
Lemma year_loop_years (years : list Z) :
  forall acc rows,
    year_loop inp acc years = Some rows -> map year rows = years.
Proof.
  induction years as [ | y years IH]; intros acc rows H.
  - injection H as <-. reflexivity.
  - apply year_loop_step in H as (s & later & -> & Hs & Hlater).
    cbn [map]. f_equal; [eapply year_body_year | eapply IH]; eassumption.
Qed.

(** What every iteration establishes, the run establishes throughout. *)
Lemma year_loop_each_iteration (P : Accumulators -> YearSnapshot -> Prop) :
  (forall acc y s, year_body inp acc y = Some s -> P acc s) ->
  forall years acc rows,
    year_loop inp acc years = Some rows -> each_iteration P acc rows.
Proof.
  intros HP. induction years as [ | y years IH]; intros acc rows H.
  - injection H as <-. exact I.
  - apply year_loop_step in H as (s & later & -> & Hs & Hlater).
    split; [eapply HP | eapply IH]; eassumption.
Qed.

Lemma year_loop_Forall (P : YearSnapshot -> Prop) :
  (forall acc y s, year_body inp acc y = Some s -> P s) ->
  forall years acc rows,
    year_loop inp acc years = Some rows -> Forall P rows.
Proof.
  intros HP. induction years as [ | y years IH]; intros acc rows H.
  - injection H as <-. constructor.
  - apply year_loop_step in H as (s & later & -> & Hs & Hlater).
    constructor; [eapply HP | eapply IH]; eassumption.
Qed.

(** The opportunity-cost total the loop starts with does not show in the
    rent-scenario net worth of any year. *)
Lemma year_loop_opportunity_cost_unused (years : list Z) :
  forall cash c1 c2 rows1 rows2,
    year_loop inp {| cumulative_rental_cash_flow := cash;
                     cumulative_opportunity_cost := c1 |} years = Some rows1 ->
    year_loop inp {| cumulative_rental_cash_flow := cash;
                     cumulative_opportunity_cost := c2 |} years = Some rows2 ->
    map rental_net_worth rows1 = map rental_net_worth rows2.
Proof.
  induction years as [ | y years IH]; intros cash c1 c2 rows1 rows2 H1 H2.
  - injection H1 as <-. injection H2 as <-. reflexivity.
  - apply year_loop_step in H1 as (s1 & later1 & -> & Hs1 & Hlater1).
    apply year_loop_step in H2 as (s2 & later2 & -> & Hs2 & Hlater2).
    destruct (year_body_opportunity_cost_unused _ _ _ _ _ _ _ Hs1 Hs2)
      as [Hworth Hcash].
    cbn [map]. f_equal; [assumption | ].
    destruct (accumulators s1) as [cash1 d1], (accumulators s2) as [cash2 d2].
    cbn in Hcash. subst cash2.
    eapply IH; eassumption.
Qed.

(** Over years that are all different from 0, every iteration adds its net
    rental cash flow to the cash-flow total. *)
Lemma year_loop_cash_flow_total (years : list Z) :
  Forall (fun y => y <> 0%Z) years ->
  forall acc rows,
    year_loop inp acc years = Some rows ->
    forall i s,
      nth_error rows i = Some s ->
      s.(accumulators).(cumulative_rental_cash_flow)
      = acc.(cumulative_rental_cash_flow)
        + total (map net_rental_cash_flow (firstn (S i) rows)).
Proof.
  induction 1 as [ | y years Hy Hyears IH]; intros acc rows H i s Hi.
  - injection H as <-. destruct i; discriminate Hi.
  - apply year_loop_step in H as (s0 & later & -> & Hs0 & Hlater).
    pose proof (year_body_year _ _ _ _ Hs0) as Hyear.
    destruct (year_body_cash_flow _ _ _ _ Hs0) as [_ Hadd].
    destruct Hadd as [_ Hadd]; [congruence | ].
    destruct i as [ | i].
    + injection Hi as <-. cbn [firstn map total fold_right]. lra.
    + cbn [nth_error] in Hi.
      rewrite (IH _ _ Hlater i s Hi), Hadd.
      change (firstn (S (S i)) (s0 :: later)) with (s0 :: firstn (S i) later).
      cbn [map total fold_right]. unfold total. lra.
Qed.

End Run.

(** ** The claims about the year loop *)

(** C2: in every iteration of the loop the rent-scenario net worth is the
    equity plus the cash-flow total as the iteration leaves it.  The
    opportunity-cost total is compounded and increased in every iteration
    with [year > 0], yet it is no part of that net worth: started with any
    other opportunity-cost total, the loop yields the same net worth in every
    year. *)
Theorem rental_net_worth_without_opportunity_cost (inp : Inputs) :
  plausible inp ->
  exists rows,
    projection inp = Some rows
    /\ map year rows = range 0 (inp.(years_to_hold) + 1)
    /\ each_iteration
         (fun acc s =>
            s.(rental_net_worth)
            = s.(equity) + s.(accumulators).(cumulative_rental_cash_flow)
            /\ ((0 < s.(year))%Z ->
                s.(accumulators).(cumulative_opportunity_cost)
                = acc.(cumulative_opportunity_cost)
                  * (1 + inp.(investment_return) / 100)
                  + s.(year_opportunity_cost)))
         (initial_accumulators inp) rows
    /\ forall other : R,
         exists rows',
           year_loop inp
             {| cumulative_rental_cash_flow := - inp.(costs_to_rent);
                cumulative_opportunity_cost := other |}
             (range 0 (inp.(years_to_hold) + 1)) = Some rows'
           /\ map rental_net_worth rows' = map rental_net_worth rows.
Proof.
  intros Hinp. unfold projection.
  destruct (year_loop_defined inp (range 0 (inp.(years_to_hold) + 1)) Hinp
              (initial_accumulators inp)) as [rows Hrows].
  exists rows. split; [assumption | ]. split; [ | split].
  - eapply year_loop_years; eassumption.
  - eapply year_loop_each_iteration; [ | eassumption].
    intros acc y s Hs. eapply year_body_rental_net_worth; eassumption.
  - intros other.
    destruct (year_loop_defined inp (range 0 (inp.(years_to_hold) + 1)) Hinp
                {| cumulative_rental_cash_flow := - inp.(costs_to_rent);
                   cumulative_opportunity_cost := other |}) as [rows' Hrows'].
    exists rows'. split; [assumption | ].
    eapply year_loop_opportunity_cost_unused; eassumption.
Qed.

Lemma rental_net_worth_without_opportunity_cost_witness :
  exists rows,
    projection defaults = Some rows
    /\ map year rows = range 0 (defaults.(years_to_hold) + 1)
    /\ each_iteration
         (fun acc s =>
            s.(rental_net_worth)
            = s.(equity) + s.(accumulators).(cumulative_rental_cash_flow)
            /\ ((0 < s.(year))%Z ->
                s.(accumulators).(cumulative_opportunity_cost)
                = acc.(cumulative_opportunity_cost)
                  * (1 + defaults.(investment_return) / 100)
                  + s.(year_opportunity_cost)))
         (initial_accumulators defaults) rows
    /\ forall other : R,
         exists rows',
           year_loop defaults
             {| cumulative_rental_cash_flow := - defaults.(costs_to_rent);
                cumulative_opportunity_cost := other |}
             (range 0 (defaults.(years_to_hold) + 1)) = Some rows'
           /\ map rental_net_worth rows' = map rental_net_worth rows.
Proof.
  apply (rental_net_worth_without_opportunity_cost defaults).
  constructor; cbn; lra || lia.
Defined.

(** C3: in every iteration of the loop the capital gain is the sale price
    minus the purchase price, and the capital-gains tax owed is 0 when that
    gain is not positive and otherwise the taxable gain times the
    capital-gains rate, the taxable gain being [max(0, gain - 500000)] when
    the primary-residence flag is set and [year <= 3], and the whole gain in
    every other case.  In particular the tax owed is exactly 0 when the flag
    is set, [year <= 3] and [0 < gain < 500000]. *)
Theorem capital_gains_tax_owed_rule (inp : Inputs) :
  plausible inp ->
  exists rows,
    projection inp = Some rows
    /\ map year rows = range 0 (inp.(years_to_hold) + 1)
    /\ Forall
         (fun s =>
            s.(capital_gain) = s.(sale_price) - inp.(purchase_price)
            /\ s.(capital_gains_tax_owed)
               = spec_capital_gains_tax inp.(is_primary_residence) s.(year)
                   s.(capital_gain) (inp.(capital_gains_tax) / 100)
            /\ (inp.(is_primary_residence) = true -> (s.(year) <= 3)%Z ->
                0 < s.(capital_gain) < 500000 ->
                s.(capital_gains_tax_owed) = 0))
         rows.
Proof.
  intros Hinp. unfold projection.
  destruct (year_loop_defined inp (range 0 (inp.(years_to_hold) + 1)) Hinp
              (initial_accumulators inp)) as [rows Hrows].
  exists rows. split; [assumption | ]. split.
  - eapply year_loop_years; eassumption.
  - eapply year_loop_Forall; [ | eassumption].
    intros acc y s Hs.
    destruct (year_body_capital_gains_tax _ _ _ _ Hs) as [Hgain Htax].
    split; [assumption | ]. split; [assumption | ].
    intros Hflag Hy Hg. rewrite Htax, Hflag.
    apply spec_capital_gains_tax_excluded; assumption.
Qed.

Lemma capital_gains_tax_owed_rule_witness :
  exists rows,
    projection defaults = Some rows
    /\ map year rows = range 0 (defaults.(years_to_hold) + 1)
    /\ Forall
         (fun s =>
            s.(capital_gain) = s.(sale_price) - defaults.(purchase_price)
            /\ s.(capital_gains_tax_owed)
               = spec_capital_gains_tax defaults.(is_primary_residence) s.(year)
                   s.(capital_gain) (defaults.(capital_gains_tax) / 100)
            /\ (defaults.(is_primary_residence) = true -> (s.(year) <= 3)%Z ->
                0 < s.(capital_gain) < 500000 ->
                s.(capital_gains_tax_owed) = 0))
         rows.
Proof.
  apply (capital_gains_tax_owed_rule defaults).
  constructor; cbn; lra || lia.
Defined.

(** C4: the cash-flow total is [-costs_to_rent] before the loop.  The
    iteration of year 0 reports the cash flow [-costs_to_rent] and leaves the
    total as it found it, so that year's net rental cash flow is not added;
    every iteration of a year above 0 adds its net rental cash flow to the
    total. *)
Theorem cash_flow_accumulation (inp : Inputs) :
  plausible inp ->
  exists rows,
    projection inp = Some rows
    /\ map year rows = range 0 (inp.(years_to_hold) + 1)
    /\ (initial_accumulators inp).(cumulative_rental_cash_flow)
       = - inp.(costs_to_rent)
    /\ each_iteration
         (fun acc s =>
            (s.(year) = 0%Z ->
             s.(year_cash_flow) = - inp.(costs_to_rent)
             /\ s.(accumulators).(cumulative_rental_cash_flow)
                = acc.(cumulative_rental_cash_flow))
            /\ ((0 < s.(year))%Z ->
                s.(accumulators).(cumulative_rental_cash_flow)
                = acc.(cumulative_rental_cash_flow) + s.(net_rental_cash_flow)))
         (initial_accumulators inp) rows.
Proof.
  intros Hinp. unfold projection.
  destruct (year_loop_defined inp (range 0 (inp.(years_to_hold) + 1)) Hinp
              (initial_accumulators inp)) as [rows Hrows].
  exists rows. split; [assumption | ]. split; [ | split].
  - eapply year_loop_years; eassumption.
  - reflexivity.
  - eapply year_loop_each_iteration; [ | eassumption].
    intros acc y s Hs.
    destruct (year_body_cash_flow _ _ _ _ Hs) as [Hzero Hlater].
    split; [assumption | ].
    intros Hy. apply Hlater. lia.
Qed.

Lemma cash_flow_accumulation_witness :
  exists rows,
    projection defaults = Some rows
    /\ map year rows = range 0 (defaults.(years_to_hold) + 1)
    /\ (initial_accumulators defaults).(cumulative_rental_cash_flow)
       = - defaults.(costs_to_rent)
    /\ each_iteration
         (fun acc s =>
            (s.(year) = 0%Z ->
             s.(year_cash_flow) = - defaults.(costs_to_rent)
             /\ s.(accumulators).(cumulative_rental_cash_flow)
                = acc.(cumulative_rental_cash_flow))
            /\ ((0 < s.(year))%Z ->
                s.(accumulators).(cumulative_rental_cash_flow)
                = acc.(cumulative_rental_cash_flow) + s.(net_rental_cash_flow)))
         (initial_accumulators defaults) rows.
Proof.
  apply (cash_flow_accumulation defaults).
  constructor; cbn; lra || lia.
Defined.

(** C5: in every iteration of the loop the recommendation is "RENT" exactly
    when the rent-scenario net worth is strictly greater than the invested
    value of the sale, and "SELL" otherwise; when the two are equal it is
    "SELL". *)
Theorem recommendation_rule (inp : Inputs) :
  plausible inp ->
  exists rows,
    projection inp = Some rows
    /\ map year rows = range 0 (inp.(years_to_hold) + 1)
    /\ Forall
         (fun s =>
            (s.(better) = "RENT"%string
             <-> s.(rental_net_worth) > s.(invested_value))
            /\ (s.(better) = "SELL"%string
                <-> ~ s.(rental_net_worth) > s.(invested_value))
            /\ (s.(rental_net_worth) = s.(invested_value) ->
                s.(better) = "SELL"%string))
         rows.
Proof.
  intros Hinp. unfold projection.
  destruct (year_loop_defined inp (range 0 (inp.(years_to_hold) + 1)) Hinp
              (initial_accumulators inp)) as [rows Hrows].
  exists rows. split; [assumption | ]. split.
  - eapply year_loop_years; eassumption.
  - eapply year_loop_Forall; [ | eassumption].
    intros acc y s Hs.
    destruct (year_body_better _ _ _ _ Hs) as [Hrent Hsell].
    destruct (Rgt_dec s.(rental_net_worth) s.(invested_value)) as [G | G].
    + specialize (Hrent G). rewrite Hrent.
      split; [tauto | ]. split; [ | lra].
      split; [discriminate | contradiction].
    + specialize (Hsell G). rewrite Hsell.
      split; [ | tauto].
      split; [discriminate | contradiction].
Qed.

Lemma recommendation_rule_witness :
  exists rows,
    projection defaults = Some rows
    /\ map year rows = range 0 (defaults.(years_to_hold) + 1)
    /\ Forall
         (fun s =>
            (s.(better) = "RENT"%string
             <-> s.(rental_net_worth) > s.(invested_value))
            /\ (s.(better) = "SELL"%string
                <-> ~ s.(rental_net_worth) > s.(invested_value))
            /\ (s.(rental_net_worth) = s.(invested_value) ->
                s.(better) = "SELL"%string))
         rows.
Proof.
  apply (recommendation_rule defaults).
  constructor; cbn; lra || lia.
Defined.

(** C10: at the end of the iteration of every year [y] of the loop the
    cash-flow total is [-costs_to_rent] plus the sum of the net rental cash
    flows computed in the iterations of the years 1 to [y]; at the end of year
    0 it is [-costs_to_rent]. *)
Theorem cash_flow_invariant (inp : Inputs) :
  plausible inp ->
  exists rows,
    projection inp = Some rows
    /\ forall y : nat,
         (Z.of_nat y <= inp.(years_to_hold))%Z ->
         exists s,
           nth_error rows y = Some s
           /\ s.(year) = Z.of_nat y
           /\ s.(accumulators).(cumulative_rental_cash_flow)
              = - inp.(costs_to_rent)
                + total (map net_rental_cash_flow (skipn 1 (firstn (S y) rows))).
Proof.
  intros Hinp. unfold projection.
  destruct (year_loop_defined inp (range 0 (inp.(years_to_hold) + 1)) Hinp
              (initial_accumulators inp)) as [rows Hrows].
  exists rows. split; [assumption | ].
  intros y Hy.
  pose proof (year_loop_years _ _ _ _ Hrows) as Hyears.
  rewrite range_from_zero in Hrows, Hyears by lia.
  apply year_loop_step in Hrows as (s0 & later & -> & Hs0 & Hlater).
  destruct (year_body_cash_flow _ _ _ _ Hs0) as [Hzero _].
  destruct Hzero as [_ Hzero]; [eapply year_body_year; eassumption | ].
  cbn [map] in Hyears. injection Hyears as Hyear0 Hyears.
  destruct y as [ | y].
  - exists s0. split; [reflexivity | ]. split; [assumption | ].
    rewrite Hzero. cbn. lra.
  - assert (y < List.length later)%nat as Hlen.
    { rewrite <- (length_map year), Hyears, length_map, length_seq. lia. }
    destruct (nth_error later y) as [s | ] eqn:Hs;
      [ | apply nth_error_None in Hs; lia].
    exists s. split; [exact Hs | ]. split.
    + pose proof (map_nth_error year _ _ Hs) as Hnth.
      rewrite Hyears in Hnth.
      rewrite nth_error_map, nth_error_seq in Hnth.
      assert ((y <? Z.to_nat inp.(years_to_hold))%nat = true) as Hlt
        by (apply Nat.ltb_lt; lia).
      rewrite Hlt in Hnth. cbn [option_map Nat.add] in Hnth.
      injection Hnth as Hnth. symmetry. exact Hnth.
    + change (skipn 1 (firstn (S (S y)) (s0 :: later))) with (firstn (S y) later).
      assert (Forall (fun k => k <> 0%Z)
                (map (fun i => Z.of_nat (S i))
                   (seq 0 (Z.to_nat inp.(years_to_hold))))) as Hpositive.
      { apply Forall_forall. intros k Hk.
        apply in_map_iff in Hk as (i & <- & _). lia. }
      rewrite (year_loop_cash_flow_total inp _ Hpositive _ _ Hlater y s Hs).
      rewrite Hzero. reflexivity.
Qed.

Lemma cash_flow_invariant_witness :
  exists rows,
    projection defaults = Some rows
    /\ forall y : nat,
         (Z.of_nat y <= defaults.(years_to_hold))%Z ->
         exists s,
           nth_error rows y = Some s
           /\ s.(year) = Z.of_nat y
           /\ s.(accumulators).(cumulative_rental_cash_flow)
              = - defaults.(costs_to_rent)
                + total (map net_rental_cash_flow (skipn 1 (firstn (S y) rows))).
Proof.
  apply (cash_flow_invariant defaults).
  constructor; cbn; lra || lia.
Defined.

(** ** Further properties of [calculate_remaining_balance] *)

Lemma max_zero_of_not_negative (x : R) : 0 <= x -> Py.max 0 x = x.
Proof. intros Hx. unfold Py.max. destruct (Rlt_dec 0 x); lra. Qed.

Lemma max_zero_of_not_positive (x : R) : x <= 0 -> Py.max 0 x = 0.
Proof. intros Hx. unfold Py.max. destruct (Rlt_dec 0 x); lra. Qed.

Lemma pow_zero_exponent (b : R) : Py.pow b 0 = Some 1.
Proof.
  unfold Py.pow, Py.is_integer.
  destruct (Rlt_dec 0 b) as [Hb | _].
  - rewrite Rpower_O by assumption. reflexivity.
  - destruct (Req_dec_T b 0) as [_ | _].
    + destruct (Rlt_dec 0 0) as [L | _]; [lra | ].
      destruct (Req_dec_T 0 0) as [_ | N]; [reflexivity | lra].
    + rewrite (up_whole 0).
      destruct (Req_dec_T 0 (IZR (0 + 1 - 1))) as [_ | N].
      * reflexivity.
      * exfalso. apply N. reflexivity.
Qed.

Lemma div_by_zero (a : R) : Py.div a 0 = None.
Proof.
  unfold Py.div. destruct (Req_dec_T 0 0) as [_ | N]; [reflexivity | lra].
Qed.

(** The quotient the positive-rate branch clamps. *)
Lemma unclamped_quotient_sign (principal F A : R) :
  0 <= principal -> 1 < F ->
  (A <= F -> 0 <= principal * (F - A) / (F - 1))
  /\ (F <= A -> principal * (F - A) / (F - 1) <= 0).
Proof.
  intros HP HF.
  assert (0 < / (F - 1)) as Hinv by (apply Rinv_0_lt_compat; lra).
  unfold Rdiv. split; intros HA.
  - apply Rmult_le_pos; [ | lra]. apply Rmult_le_pos; lra.
  - assert (0 <= principal * (A - F) * / (F - 1)) as Hneg.
    { apply Rmult_le_pos; [ | lra]. apply Rmult_le_pos; lra. }
    lra.
Qed.

(** X1: with a total term of 0 months [calculate_remaining_balance] raises
    (a division by zero), whatever the principal, the monthly rate and the
    months paid: the zero-rate branch divides by the term, the other by
    [factor - 1], which is 0 at a term of 0. *)
Theorem balance_raises_at_zero_term (principal monthly_rate months_paid : R) :
  calculate_remaining_balance principal monthly_rate 0 months_paid = None.
Proof.
  unfold calculate_remaining_balance.
  destruct (Req_dec_T monthly_rate 0) as [_ | _].
  - rewrite div_by_zero. reflexivity.
  - rewrite pow_zero_exponent. cbn [Py.bind].
    destruct (Py.pow (1 + monthly_rate) months_paid) as [paid_factor | ];
      [cbn [Py.bind] | reflexivity].
    replace (1 - 1) with 0 by lra.
    rewrite div_by_zero. reflexivity.
Qed.

(** X2: at a positive monthly rate the loan stays paid off: once the months
    paid reach or exceed the term the balance returned is 0 (principal not
    negative, term a positive whole number of months). *)
Theorem balance_paid_off (principal monthly_rate months_paid : R) (n : Z) :
  0 <= principal -> 0 < monthly_rate -> (0 < n)%Z -> IZR n <= months_paid ->
  calculate_remaining_balance principal monthly_rate (IZR n) months_paid = Some 0.
Proof.
  intros HP Hr Hn Hp.
  pose proof (positive_term n Hn) as Hn'.
  rewrite balance_positive_rate by assumption. f_equal.
  apply max_zero_of_not_positive.
  pose proof (Rpower_above_one (1 + monthly_rate) (IZR n)) as HF.
  pose proof (Rle_Rpower (1 + monthly_rate) (IZR n) months_paid) as HA.
  apply unclamped_quotient_sign; lra.
Qed.

Lemma balance_paid_off_witness :
  calculate_remaining_balance 320000 (6.5 / 100 / 12) (IZR 360) 400 = Some 0.
Proof. apply balance_paid_off; lra || lia. Defined.

(** X3: strictly inside the term the balance lies strictly between 0 and the
    principal: for a positive principal, a monthly rate that is not negative,
    a term of [n] whole months and [p] whole months paid with [0 < p < n],
    the call returns a balance [b] with [0 < b < principal]. *)
Theorem balance_within_term (principal monthly_rate : R) (n p : Z) :
  0 < principal -> 0 <= monthly_rate -> (0 < p < n)%Z ->
  exists balance,
    calculate_remaining_balance principal monthly_rate (IZR n) (IZR p)
    = Some balance
    /\ 0 < balance < principal.
Proof.
  intros HP Hr [Hp0 Hpn].
  assert (0 < IZR p) as Hp0' by (apply (IZR_lt 0); assumption).
  assert (IZR p < IZR n) as Hpn' by (apply IZR_lt; assumption).
  assert (0 < IZR n) as Hn' by lra.
  destruct (Req_dec_T monthly_rate 0) as [E | N].
  - eexists. split; [apply balance_zero_rate; [assumption | lra] | ].
    replace (principal - principal / IZR n * IZR p)
      with (principal * ((IZR n - IZR p) / IZR n)) by (field; lra).
    assert (0 < / IZR n) as Hinv by (apply Rinv_0_lt_compat; assumption).
    assert (0 < (IZR n - IZR p) / IZR n < 1) as [Hlo Hhi].
    { unfold Rdiv. split.
      - apply Rmult_lt_0_compat; lra.
      - rewrite <- (Rinv_r (IZR n)) by lra.
        apply Rmult_lt_compat_r; lra. }
    split; nra.
  - assert (0 < monthly_rate) as Hr' by lra.
    eexists. split; [apply balance_positive_rate; assumption | ].
    pose proof (Rpower_lt (1 + monthly_rate) (IZR p) (IZR n)) as HA.
    pose proof (Rpower_above_one (1 + monthly_rate) (IZR p)) as HA0.
    set (F := Rpower (1 + monthly_rate) (IZR n)) in *.
    set (A := Rpower (1 + monthly_rate) (IZR p)) in *.
    assert (0 < / (F - 1)) as Hinv by (apply Rinv_0_lt_compat; lra).
    rewrite max_zero_of_not_negative
      by (apply unclamped_quotient_sign; lra).
    split.
    + unfold Rdiv. apply Rmult_lt_0_compat; [ | assumption].
      apply Rmult_lt_0_compat; lra.
    + replace principal with (principal * (F - 1) / (F - 1)) at 2
        by (field; lra).
      unfold Rdiv. apply Rmult_lt_compat_r; [assumption | ].
      apply Rmult_lt_compat_l; lra.
Qed.

Lemma balance_within_term_witness :
  exists balance,
    calculate_remaining_balance 320000 (6.5 / 100 / 12) (IZR 360) (IZR 49)
    = Some balance
    /\ 0 < balance < 320000.
Proof. apply balance_within_term; lra || lia. Defined.

(** X4: until the loan is paid off the balance falls strictly: for a positive
    principal, a monthly rate that is not negative and a term of [n] months,
    [p1 < p2 <= n] gives a strictly smaller balance after [p2] months than
    after [p1]. *)
Theorem balance_strictly_decreasing (principal monthly_rate p1 p2 : R) (n : Z) :
  0 < principal -> 0 <= monthly_rate -> (0 < n)%Z ->
  p1 < p2 <= IZR n ->
  exists b1 b2,
    calculate_remaining_balance principal monthly_rate (IZR n) p1 = Some b1
    /\ calculate_remaining_balance principal monthly_rate (IZR n) p2 = Some b2
    /\ b2 < b1.
Proof.
  intros HP Hr Hn [Hlt Hpn].
  pose proof (positive_term n Hn) as Hn'.
  destruct (Req_dec_T monthly_rate 0) as [E | N].
  - do 2 eexists. split; [ | split].
    + apply balance_zero_rate; [assumption | lra].
    + apply balance_zero_rate; [assumption | lra].
    + assert (0 < principal / IZR n) by (apply Rdiv_lt_0_compat; assumption).
      nra.
  - assert (0 < monthly_rate) as Hr' by lra.
    do 2 eexists. split; [ | split].
    + apply balance_positive_rate; assumption.
    + apply balance_positive_rate; assumption.
    + pose proof (Rpower_above_one (1 + monthly_rate) (IZR n)) as HF.
      pose proof (Rle_Rpower (1 + monthly_rate) p2 (IZR n)) as HA2.
      pose proof (Rpower_lt (1 + monthly_rate) p1 p2) as HA.
      set (F := Rpower (1 + monthly_rate) (IZR n)) in *.
      set (A1 := Rpower (1 + monthly_rate) p1) in *.
      set (A2 := Rpower (1 + monthly_rate) p2) in *.
      assert (0 < / (F - 1)) as Hinv by (apply Rinv_0_lt_compat; lra).
      rewrite !max_zero_of_not_negative
        by (apply unclamped_quotient_sign; lra).
      unfold Rdiv. apply Rmult_lt_compat_r; [assumption | ].
      apply Rmult_lt_compat_l; lra.
Qed.

Lemma balance_strictly_decreasing_witness :
  exists b1 b2,
    calculate_remaining_balance 320000 (6.5 / 100 / 12) (IZR 360) 49 = Some b1
    /\ calculate_remaining_balance 320000 (6.5 / 100 / 12) (IZR 360) 109 = Some b2
    /\ b2 < b1.
Proof. apply balance_strictly_decreasing; lra || lia. Defined.

(** ** The calculated payment *)

Lemma calculated_payment_positive_rate (inp : Inputs) :
  0 < inp.(interest_rate) -> (0 < inp.(total_loan_months))%Z ->
  calculated_payment inp
  = Some (inp.(original_loan_amount)
          * (monthly_rate inp
             * Rpower (1 + monthly_rate inp) (IZR inp.(total_loan_months)))
          / (Rpower (1 + monthly_rate inp) (IZR inp.(total_loan_months)) - 1)).
Proof.
  intros Hi Hn.
  pose proof (positive_term _ Hn) as Hn'.
  assert (0 < monthly_rate inp) as Hr by (unfold monthly_rate; lra).
  pose proof (Rpower_above_one (1 + monthly_rate inp)
                (IZR inp.(total_loan_months))) as HF.
  unfold calculated_payment.
  rewrite pow_positive_base by lra. cbn [Py.bind].
  apply div_defined. lra.
Qed.

(** X5: at an interest rate of 0 the payment verification raises (a division
    by zero): [factor] is then 1 and the formula divides by [factor - 1];
    unlike [calculate_remaining_balance] it has no zero-rate case.  The
    script raises with it: no year is projected. *)
Theorem calculated_payment_raises_at_zero_rate (inp : Inputs) :
  inp.(interest_rate) = 0 ->
  calculated_payment inp = None /\ script inp = None.
Proof.
  intros Hi.
  assert (calculated_payment inp = None) as Hpayment.
  { unfold calculated_payment, monthly_rate. rewrite Hi.
    replace (1 + 0 / 100 / 12) with 1 by lra.
    rewrite pow_positive_base by lra. cbn [Py.bind].
    replace (Rpower 1 (IZR inp.(total_loan_months))) with 1.
    - replace (1 - 1) with 0 by lra. apply div_by_zero.
    - unfold Rpower. rewrite ln_1, Rmult_0_r, exp_0. reflexivity. }
  split; [assumption | ].
  unfold script. rewrite Hpayment.
  destruct (current_balance inp); reflexivity.
Qed.

Lemma calculated_payment_raises_at_zero_rate_witness :
  calculated_payment
    {| purchase_price := 400000; original_loan_amount := 320000;
       interest_rate := 0; monthly_pi := 889; monthly_hoa := 150;
       monthly_taxes := 350; monthly_insurance := 150;
       monthly_maintenance := 200; rental_price := 2800;
       annual_rent_increase := 3; property_mgmt_fee := 10;
       costs_to_rent := 5000; rental_tax_rate := 22; home_appreciation := 3;
       selling_fees := 6; costs_to_sell := 10000; capital_gains_tax := 15;
       investment_return := 7; years_to_hold := 10;
       is_primary_residence := true; total_loan_months := 360;
       elapsed := 49 |} = None
  /\ script
       {| purchase_price := 400000; original_loan_amount := 320000;
          interest_rate := 0; monthly_pi := 889; monthly_hoa := 150;
          monthly_taxes := 350; monthly_insurance := 150;
          monthly_maintenance := 200; rental_price := 2800;
          annual_rent_increase := 3; property_mgmt_fee := 10;
          costs_to_rent := 5000; rental_tax_rate := 22; home_appreciation := 3;
          selling_fees := 6; costs_to_sell := 10000; capital_gains_tax := 15;
          investment_return := 7; years_to_hold := 10;
          is_primary_residence := true; total_loan_months := 360;
          elapsed := 49 |} = None.
Proof. apply calculated_payment_raises_at_zero_rate. reflexivity. Defined.

(** X6: at a positive interest rate, with a positive loan amount and term,
    the calculated payment exists and is more than one month of interest on
    the whole loan, so that paying it reduces the balance. *)
Theorem calculated_payment_exceeds_interest (inp : Inputs) :
  0 < inp.(interest_rate) -> 0 < inp.(original_loan_amount) ->
  (0 < inp.(total_loan_months))%Z ->
  exists payment,
    calculated_payment inp = Some payment
    /\ inp.(original_loan_amount) * monthly_rate inp < payment.
Proof.
  intros Hi HP Hn.
  eexists. split; [apply calculated_payment_positive_rate; assumption | ].
  pose proof (positive_term _ Hn) as Hn'.
  assert (0 < monthly_rate inp) as Hr by (unfold monthly_rate; lra).
  pose proof (Rpower_above_one (1 + monthly_rate inp)
                (IZR inp.(total_loan_months))) as HF.
  set (F := Rpower (1 + monthly_rate inp) (IZR inp.(total_loan_months))) in *.
  set (P := inp.(original_loan_amount)) in *.
  set (r := monthly_rate inp) in *.
  replace (P * r) with (P * (r * (F - 1)) / (F - 1)) at 1 by (field; lra).
  assert (0 < / (F - 1)) as Hinv by (apply Rinv_0_lt_compat; lra).
  unfold Rdiv. apply Rmult_lt_compat_r; [assumption | ].
  apply Rmult_lt_compat_l; [assumption | ].
  apply Rmult_lt_compat_l; lra.
Qed.

Lemma calculated_payment_exceeds_interest_witness :
  exists payment,
    calculated_payment defaults = Some payment
    /\ defaults.(original_loan_amount) * monthly_rate defaults < payment.
Proof.
  apply calculated_payment_exceeds_interest; cbn; lra || lia.
Defined.

(** X7: every payment reduces the balance, and by less than the calculated
    payment, the rest being interest: at a positive interest rate and loan
    amount, for whole months [0 <= p] with [p + 1] within the term, the
    balance after [p + 1] months is below the balance after [p] months and
    above that balance minus the calculated payment. *)
Theorem balance_after_one_payment (inp : Inputs) (p : Z) :
  0 < inp.(interest_rate) -> 0 < inp.(original_loan_amount) ->
  (0 <= p)%Z -> (p + 1 <= inp.(total_loan_months))%Z ->
  exists before after payment,
    calculate_remaining_balance inp.(original_loan_amount) (monthly_rate inp)
      (IZR inp.(total_loan_months)) (IZR p) = Some before
    /\ calculate_remaining_balance inp.(original_loan_amount) (monthly_rate inp)
         (IZR inp.(total_loan_months)) (IZR (p + 1)) = Some after
    /\ calculated_payment inp = Some payment
    /\ before - payment < after < before.
Proof.
  intros Hi HP Hp0 Hp.
  assert (0 < inp.(total_loan_months))%Z as Hn by lia.
  pose proof (positive_term _ Hn) as Hn'.
  assert (0 < monthly_rate inp) as Hr by (unfold monthly_rate; lra).
  assert (IZR (p + 1) <= IZR inp.(total_loan_months)) as Hp' by (apply IZR_le; lia).
  rewrite plus_IZR in *.
  do 3 eexists. split; [ | split; [ | split]].
  - apply balance_positive_rate; assumption.
  - apply balance_positive_rate; assumption.
  - apply calculated_payment_positive_rate; assumption.
  - pose proof (Rpower_above_one (1 + monthly_rate inp)
                  (IZR inp.(total_loan_months))) as HF.
    pose proof (Rle_Rpower (1 + monthly_rate inp) (IZR p + 1)
                  (IZR inp.(total_loan_months))) as HA1.
    assert (0 < Rpower (1 + monthly_rate inp) (IZR p)) as HA0
      by (unfold Rpower; apply exp_pos).
    rewrite Rpower_plus, Rpower_1 in * by lra.
    set (F := Rpower (1 + monthly_rate inp) (IZR inp.(total_loan_months))) in *.
    set (A := Rpower (1 + monthly_rate inp) (IZR p)) in *.
    set (P := inp.(original_loan_amount)) in *.
    set (r := monthly_rate inp) in *.
    assert (A < A * (1 + r)) as HA by nra.
    assert (0 < / (F - 1)) as Hinv by (apply Rinv_0_lt_compat; lra).
    rewrite !max_zero_of_not_negative
      by (apply unclamped_quotient_sign; lra).
    assert (0 < P * (F - A) / (F - 1)) as Hbefore.
    { unfold Rdiv. apply Rmult_lt_0_compat; [ | assumption].
      apply Rmult_lt_0_compat; lra. }
    split.
    + replace (P * (F - A * (1 + r)) / (F - 1))
        with (P * (F - A) / (F - 1) * (1 + r) - P * (r * F) / (F - 1))
        by (field; lra).
      nra.
    + unfold Rdiv. apply Rmult_lt_compat_r; [assumption | ].
      apply Rmult_lt_compat_l; lra.
Qed.

Lemma balance_after_one_payment_witness :
  exists before after payment,
    calculate_remaining_balance defaults.(original_loan_amount)
      (monthly_rate defaults) (IZR defaults.(total_loan_months)) (IZR 49)
    = Some before
    /\ calculate_remaining_balance defaults.(original_loan_amount)
         (monthly_rate defaults) (IZR defaults.(total_loan_months))
         (IZR (49 + 1))
       = Some after
    /\ calculated_payment defaults = Some payment
    /\ before - payment < after < before.
Proof.
  apply (balance_after_one_payment defaults 49); cbn; lra || lia.
Defined.

(** ** Further properties of the year loop *)

(** The powers and the balance an iteration computes, with plausible
    inputs. *)
Lemma year_body_closed_forms (inp : Inputs) (acc : Accumulators) (y : Z)
    (s : YearSnapshot) :
  plausible inp -> year_body inp acc y = Some s ->
  s.(home_value)
  = inp.(purchase_price)
    * Rpower (1 + inp.(home_appreciation) / 100)
        (IZR (inp.(elapsed) + y * 12) / 12)
  /\ calculate_remaining_balance inp.(original_loan_amount) (monthly_rate inp)
       (IZR inp.(total_loan_months)) (IZR (inp.(elapsed) + y * 12))
     = Some s.(loan_balance)
  /\ s.(annual_rental_income)
     = inp.(rental_price) * Rpower (1 + inp.(annual_rent_increase) / 100) (IZR y)
       * 12
  /\ s.(equity) = s.(home_value) - s.(loan_balance)
  /\ s.(invested_value)
     = s.(net_after_tax_proceeds)
       * Rpower (1 + inp.(investment_return) / 100)
           (IZR (inp.(years_to_hold) - y)).
Proof.
  intros [Hi Ha Hr Hv Hn] H. open_body H.
  rewrite pow_positive_base in E, E1, E2 by lra.
  injection E as <-. injection E1 as <-. injection E2 as <-.
  repeat split; reflexivity.
Qed.

Section RunInvariants.

Variable inp : Inputs.

(** A property of the state that every iteration preserves holds at the
    start of every iteration, and what the iterations establish from it holds
    of every snapshot. *)
Lemma year_loop_invariant (I : Accumulators -> Prop) (P : YearSnapshot -> Prop) :
  (forall acc y s,
      I acc -> year_body inp acc y = Some s -> P s /\ I s.(accumulators)) ->
  forall years acc rows,
    I acc -> year_loop inp acc years = Some rows -> Forall P rows.
Proof.
  intros Hstep. induction years as [ | y years IH]; intros acc rows Hacc H.
  - injection H as <-. constructor.
  - apply year_loop_step in H as (s & later & -> & Hs & Hlater).
    destruct (Hstep _ _ _ Hacc Hs) as [HP Hnext].
    constructor; [assumption | eapply IH; eassumption].
Qed.

End RunInvariants.

(** X8: rental losses give no refund: in every year of the projection the
    rental tax is not negative, the net rental cash flow is the gross rental
    profit minus that tax, and when the gross profit does not exceed the
    annual depreciation the tax is 0 (rental tax rate not negative). *)
Theorem rental_tax_never_refunds (inp : Inputs) :
  plausible inp -> 0 <= inp.(rental_tax_rate) ->
  exists rows,
    projection inp = Some rows
    /\ Forall
         (fun s =>
            0 <= s.(rental_tax)
            /\ s.(net_rental_cash_flow) = s.(gross_rental_profit) - s.(rental_tax)
            /\ (s.(gross_rental_profit) <= annual_depreciation inp ->
                s.(rental_tax) = 0))
         rows.
Proof.
  intros Hinp Ht. unfold projection.
  destruct (year_loop_defined inp (range 0 (inp.(years_to_hold) + 1)) Hinp
              (initial_accumulators inp)) as [rows Hrows].
  exists rows. split; [assumption | ].
  eapply year_loop_Forall; [ | eassumption].
  intros acc y s Hs. open_body Hs.
  split; [apply max_zero_not_negative | ]. split; [reflexivity | ].
  intros Hloss. apply max_zero_of_not_positive.
  assert (0 <= inp.(rental_tax_rate) / 100) as Hrate by lra.
  match goal with
  | |- ?income * _ <= 0 => assert (income <= 0) as Hincome by lra
  end.
  nra.
Qed.

Lemma rental_tax_never_refunds_witness :
  exists rows,
    projection defaults = Some rows
    /\ Forall
         (fun s =>
            0 <= s.(rental_tax)
            /\ s.(net_rental_cash_flow) = s.(gross_rental_profit) - s.(rental_tax)
            /\ (s.(gross_rental_profit) <= annual_depreciation defaults ->
                s.(rental_tax) = 0))
         rows.
Proof.
  apply (rental_tax_never_refunds defaults); [ | cbn; lra].
  constructor; cbn; lra || lia.
Defined.

Lemma year_body_opportunity_cost (inp : Inputs) (acc : Accumulators) (y : Z)
    (s : YearSnapshot) :
  year_body inp acc y = Some s ->
  0 <= s.(year_opportunity_cost)
  /\ ((0 < y)%Z -> 0 <= s.(net_rental_cash_flow) -> s.(year_opportunity_cost) = 0)
  /\ ((0 < y)%Z ->
      s.(accumulators).(cumulative_opportunity_cost)
      = acc.(cumulative_opportunity_cost) * (1 + inp.(investment_return) / 100)
        + s.(year_opportunity_cost))
  /\ ((y <= 0)%Z ->
      s.(accumulators).(cumulative_opportunity_cost)
      = acc.(cumulative_opportunity_cost)).
Proof.
  intros H. open_body H.
  match goal with
  | |- context [Rlt_dec ?x 0] => destruct (Rlt_dec x 0) as [L | L]
  end.
  - destruct (0 <? y)%Z eqn:Hy; cbn [andb].
    + split; [apply Rabs_pos | ]. split; [intros _ Hpos; lra | ].
      split; [reflexivity | ]. apply Z.ltb_lt in Hy. lia.
    + split; [lra | ]. apply Z.ltb_ge in Hy.
      split; [lia | ]. split; [lia | reflexivity].
  - rewrite andb_false_r.
    split; [lra | ]. split; [reflexivity | ].
    destruct (0 <? y)%Z eqn:Hy.
    + split; [reflexivity | ]. apply Z.ltb_lt in Hy. lia.
    + apply Z.ltb_ge in Hy. split; [lia | reflexivity].
Qed.

(** X9: the opportunity cost is never negative: in every year of the
    projection the year's opportunity cost and the running opportunity-cost
    total are both at least 0. *)
Theorem opportunity_cost_not_negative (inp : Inputs) :
  plausible inp ->
  exists rows,
    projection inp = Some rows
    /\ Forall
         (fun s =>
            0 <= s.(year_opportunity_cost)
            /\ 0 <= s.(accumulators).(cumulative_opportunity_cost))
         rows.
Proof.
  intros Hinp. unfold projection.
  destruct (year_loop_defined inp (range 0 (inp.(years_to_hold) + 1)) Hinp
              (initial_accumulators inp)) as [rows Hrows].
  exists rows. split; [assumption | ].
  apply (year_loop_invariant inp
           (fun acc => 0 <= acc.(cumulative_opportunity_cost))
           _) with (3 := Hrows); [ | cbn; lra].
  intros acc y s Hacc Hs.
  destruct (year_body_opportunity_cost _ _ _ _ Hs) as (Hyear & _ & Hup & Hsame).
  assert (0 <= s.(accumulators).(cumulative_opportunity_cost)) as Hnext.
  { destruct (Z_lt_le_dec 0 y) as [Hy | Hy].
    - rewrite (Hup Hy).
      destruct Hinp as [_ _ _ Hv _].
      assert (0 <= acc.(cumulative_opportunity_cost)
                   * (1 + inp.(investment_return) / 100))
        by (apply Rmult_le_pos; lra).
      lra.
    - rewrite (Hsame Hy). assumption. }
  auto.
Qed.

Lemma opportunity_cost_not_negative_witness :
  exists rows,
    projection defaults = Some rows
    /\ Forall
         (fun s =>
            0 <= s.(year_opportunity_cost)
            /\ 0 <= s.(accumulators).(cumulative_opportunity_cost))
         rows.
Proof.
  apply (opportunity_cost_not_negative defaults).
  constructor; cbn; lra || lia.
Defined.

Lemma year_loop_without_shortfall (inp : Inputs) (years : list Z) :
  forall acc rows,
    acc.(cumulative_opportunity_cost) = 0 ->
    year_loop inp acc years = Some rows ->
    (forall s, In s rows -> (0 < s.(year))%Z -> 0 <= s.(net_rental_cash_flow)) ->
    Forall (fun s => s.(accumulators).(cumulative_opportunity_cost) = 0) rows.
Proof.
  induction years as [ | y years IH]; intros acc rows Hacc H Hflow.
  - injection H as <-. constructor.
  - apply year_loop_step in H as (s & later & -> & Hs & Hlater).
    pose proof (year_body_year _ _ _ _ Hs) as Hyear.
    destruct (year_body_opportunity_cost _ _ _ _ Hs) as (_ & Hnone & Hup & Hsame).
    assert (s.(accumulators).(cumulative_opportunity_cost) = 0) as Hnext.
    { destruct (Z_lt_le_dec 0 y) as [Hy | Hy].
      - rewrite (Hup Hy), Hacc, Hnone; [lra | assumption | ].
        apply Hflow; [left; reflexivity | lia].
      - rewrite (Hsame Hy). assumption. }
    constructor; [assumption | ].
    eapply IH; [eassumption | eassumption | ].
    intros s' Hin. apply Hflow. right. assumption.
Qed.

(** Rent that covers the ownership costs and the management fee at today's
    level leaves no year with a shortfall. *)
Lemma year_body_without_shortfall (inp : Inputs) (acc : Accumulators) (y : Z)
    (s : YearSnapshot) :
  plausible inp ->
  0 <= inp.(purchase_price) -> 0 <= inp.(rental_price) ->
  inp.(property_mgmt_fee) <= 100 -> 0 <= inp.(rental_tax_rate) <= 100 ->
  monthly_ownership_cost inp * 12
  <= inp.(rental_price) * 12
     - inp.(rental_price) * 12 * (inp.(property_mgmt_fee) / 100) ->
  (0 <= y)%Z ->
  year_body inp acc y = Some s -> 0 <= s.(net_rental_cash_flow).
Proof.
  intros Hinp Hprice Hrent Hfee [Htax0 Htax1] Hcover Hy H.
  destruct Hinp as [_ _ Hr _ _].
  open_body H.
  rewrite pow_positive_base in E1 by lra. injection E1 as <-.
  assert (1 <= Rpower (1 + inp.(annual_rent_increase) / 100) (IZR y)) as Hgrowth.
  { rewrite <- (Rpower_O (1 + inp.(annual_rent_increase) / 100)) at 1 by lra.
    apply Rle_Rpower; [lra | apply (IZR_le 0); assumption]. }
  set (g := Rpower (1 + inp.(annual_rent_increase) / 100) (IZR y)) in *.
  assert (0 <= annual_depreciation inp) as Hdep
    by (unfold annual_depreciation; lra).
  set (d := annual_depreciation inp) in *.
  set (c := monthly_ownership_cost inp * 12) in *.
  set (f := inp.(property_mgmt_fee) / 100) in *.
  set (t := inp.(rental_tax_rate) / 100) in *.
  assert (f <= 1) as Hf by (unfold f; lra).
  assert (0 <= t <= 1) as [Ht0 Ht1] by (unfold t; lra).
  assert (0 <= (g - 1) * (inp.(rental_price) * (1 - f))) as Hmore
    by (apply Rmult_le_pos; [lra | apply Rmult_le_pos; lra]).
  assert (0 <= inp.(rental_price) * g * 12
               - inp.(rental_price) * g * 12 * f - c) as Hgross by lra.
  unfold Py.max.
  match goal with
  | |- context [Rlt_dec 0 ?tax] => destruct (Rlt_dec 0 tax) as [L | L]
  end; nra.
Qed.

(** X10: opportunity cost comes from shortfalls only: in a projection where
    no year above 0 has a negative net rental cash flow, the opportunity-cost
    total is 0 in every year. *)
Theorem no_shortfall_no_opportunity_cost (inp : Inputs) :
  plausible inp ->
  exists rows,
    projection inp = Some rows
    /\ ((forall s, In s rows -> (0 < s.(year))%Z -> 0 <= s.(net_rental_cash_flow)) ->
        Forall (fun s => s.(accumulators).(cumulative_opportunity_cost) = 0) rows).
Proof.
  intros Hinp. unfold projection.
  destruct (year_loop_defined inp (range 0 (inp.(years_to_hold) + 1)) Hinp
              (initial_accumulators inp)) as [rows Hrows].
  exists rows. split; [assumption | ].
  intros Hflow.
  eapply year_loop_without_shortfall; [ | eassumption | assumption].
  reflexivity.
Qed.

Lemma no_shortfall_no_opportunity_cost_witness :
  exists rows,
    projection high_rent = Some rows
    /\ (forall s, In s rows -> (0 < s.(year))%Z -> 0 <= s.(net_rental_cash_flow))
    /\ Forall (fun s => s.(accumulators).(cumulative_opportunity_cost) = 0) rows.
Proof.
  assert (plausible high_rent) as Hinp by (constructor; cbn; lra || lia).
  destruct (no_shortfall_no_opportunity_cost high_rent Hinp)
    as (rows & Hrows & Hzero).
  assert (forall s, In s rows -> (0 < s.(year))%Z -> 0 <= s.(net_rental_cash_flow))
    as Hflow.
  { apply (proj1 (Forall_forall
                    (fun s => (0 < s.(year))%Z -> 0 <= s.(net_rental_cash_flow))
                    rows)).
    eapply year_loop_Forall; [ | exact Hrows].
    intros acc y s Hs Hy.
    rewrite (year_body_year _ _ _ _ Hs) in Hy.
    apply (year_body_without_shortfall high_rent acc y s Hinp);
      [cbn; lra | cbn; lra | cbn; lra | cbn; lra
      | unfold monthly_ownership_cost; cbn; lra | lia | exact Hs]. }
  exists rows. split; [exact Hrows | ]. split; [exact Hflow | ].
  apply Hzero. exact Hflow.
Defined.

(** X11: in the last year of the projection nothing is left to compound: the
    years to invest are the horizon minus the year in every snapshot, and in
    the snapshot of year [years_to_hold] the invested value is the net
    after-tax proceeds of the sale. *)
Theorem invested_value_at_horizon (inp : Inputs) :
  plausible inp ->
  exists rows,
    projection inp = Some rows
    /\ map year rows = range 0 (inp.(years_to_hold) + 1)
    /\ Forall
         (fun s =>
            s.(years_to_invest) = (inp.(years_to_hold) - s.(year))%Z
            /\ (s.(year) = inp.(years_to_hold) ->
                s.(invested_value) = s.(net_after_tax_proceeds)))
         rows.
Proof.
  intros Hinp. unfold projection.
  destruct (year_loop_defined inp (range 0 (inp.(years_to_hold) + 1)) Hinp
              (initial_accumulators inp)) as [rows Hrows].
  exists rows. split; [assumption | ]. split.
  - eapply year_loop_years; eassumption.
  - eapply year_loop_Forall; [ | eassumption].
    intros acc y s Hs.
    pose proof (year_body_year _ _ _ _ Hs) as Hyear.
    destruct (year_body_closed_forms _ _ _ _ Hinp Hs) as (_ & _ & _ & _ & Hinv).
    split.
    + clear Hinv. open_body Hs. reflexivity.
    + intros Hlast. rewrite Hinv.
      replace (inp.(years_to_hold) - y)%Z with 0%Z by lia.
      destruct Hinp as [_ _ _ Hv _].
      rewrite Rpower_O by lra. ring.
Qed.

Lemma invested_value_at_horizon_witness :
  exists rows,
    projection defaults = Some rows
    /\ map year rows = range 0 (defaults.(years_to_hold) + 1)
    /\ Forall
         (fun s =>
            s.(years_to_invest) = (defaults.(years_to_hold) - s.(year))%Z
            /\ (s.(year) = defaults.(years_to_hold) ->
                s.(invested_value) = s.(net_after_tax_proceeds)))
         rows.
Proof.
  apply (invested_value_at_horizon defaults).
  constructor; cbn; lra || lia.
Defined.

(** The closed forms of every snapshot of a run. *)
Lemma projection_closed_forms (inp : Inputs) (rows : list YearSnapshot) :
  plausible inp -> projection inp = Some rows ->
  Forall
    (fun s =>
       s.(home_value)
       = inp.(purchase_price)
         * Rpower (1 + inp.(home_appreciation) / 100)
             (IZR (inp.(elapsed) + s.(year) * 12) / 12)
       /\ calculate_remaining_balance inp.(original_loan_amount)
            (monthly_rate inp) (IZR inp.(total_loan_months))
            (IZR (inp.(elapsed) + s.(year) * 12))
          = Some s.(loan_balance)
       /\ s.(annual_rental_income)
          = inp.(rental_price)
            * Rpower (1 + inp.(annual_rent_increase) / 100) (IZR s.(year)) * 12
       /\ s.(equity) = s.(home_value) - s.(loan_balance))
    rows.
Proof.
  intros Hinp Hrows. unfold projection in Hrows.
  eapply year_loop_Forall; [ | eassumption].
  intros acc y s Hs.
  rewrite (year_body_year _ _ _ _ Hs).
  destruct (year_body_closed_forms _ _ _ _ Hinp Hs) as (H1 & H2 & H3 & H4 & _).
  auto.
Qed.

(** X12: growth shows in every later year: with a purchase price and an
    appreciation rate that are positive, a later snapshot has a strictly
    greater home value, and with a rent and an annual rent increase that are
    positive, a strictly greater annual rental income. *)
Theorem values_grow_yearly (inp : Inputs) :
  plausible inp ->
  exists rows,
    projection inp = Some rows
    /\ map year rows = range 0 (inp.(years_to_hold) + 1)
    /\ forall s s',
         In s rows -> In s' rows -> (s.(year) < s'.(year))%Z ->
         (0 < inp.(purchase_price) -> 0 < inp.(home_appreciation) ->
          s.(home_value) < s'.(home_value))
         /\ (0 < inp.(rental_price) -> 0 < inp.(annual_rent_increase) ->
             s.(annual_rental_income) < s'.(annual_rental_income)).
Proof.
  intros Hinp.
  destruct (year_loop_defined inp (range 0 (inp.(years_to_hold) + 1)) Hinp
              (initial_accumulators inp)) as [rows Hrows].
  fold (projection inp) in Hrows.
  exists rows. split; [assumption | ].
  split; [eapply year_loop_years; exact Hrows | ].
  pose proof (projection_closed_forms inp rows Hinp Hrows) as Hforms.
  rewrite Forall_forall in Hforms.
  intros s s' Hs Hs' Hlater.
  destruct (Hforms s Hs) as (Hv & _ & Hr & _).
  destruct (Hforms s' Hs') as (Hv' & _ & Hr' & _).
  rewrite Hv', Hr', Hv, Hr. split.
  - intros Hprice Ha.
    apply Rmult_lt_compat_l; [assumption | ].
    apply Rpower_lt; [lra | ].
    assert (IZR (inp.(elapsed) + s.(year) * 12)
            < IZR (inp.(elapsed) + s'.(year) * 12)) by (apply IZR_lt; lia).
    lra.
  - intros Hrent Hi.
    assert (Rpower (1 + inp.(annual_rent_increase) / 100) (IZR s.(year))
            < Rpower (1 + inp.(annual_rent_increase) / 100) (IZR s'.(year)))
      by (apply Rpower_lt; [lra | apply IZR_lt; assumption]).
    nra.
Qed.

Lemma values_grow_yearly_witness :
  exists rows,
    projection defaults = Some rows
    /\ map year rows = range 0 (defaults.(years_to_hold) + 1)
    /\ forall s s',
         In s rows -> In s' rows -> (s.(year) < s'.(year))%Z ->
         (0 < defaults.(purchase_price) -> 0 < defaults.(home_appreciation) ->
          s.(home_value) < s'.(home_value))
         /\ (0 < defaults.(rental_price) -> 0 < defaults.(annual_rent_increase) ->
             s.(annual_rental_income) < s'.(annual_rental_income)).
Proof.
  apply (values_grow_yearly defaults).
  constructor; cbn; lra || lia.
Defined.

(** The balance never grows with the months paid (principal and monthly rate
    not negative, positive term). *)
Lemma balance_not_increasing (principal monthly_rate total_months p1 p2 b1 b2 : R) :
  0 <= principal -> 0 <= monthly_rate -> 0 < total_months -> p1 <= p2 ->
  calculate_remaining_balance principal monthly_rate total_months p1 = Some b1 ->
  calculate_remaining_balance principal monthly_rate total_months p2 = Some b2 ->
  b2 <= b1.
Proof.
  intros HP Hr Hn Hp H1 H2.
  destruct (Req_dec_T monthly_rate 0) as [E | N].
  - rewrite balance_zero_rate in H1, H2 by (assumption || lra).
    injection H1 as <-. injection H2 as <-.
    assert (0 <= principal / total_months).
    { unfold Rdiv. apply Rmult_le_pos; [assumption | ].
      left. apply Rinv_0_lt_compat. assumption. }
    nra.
  - rewrite balance_positive_rate in H1, H2 by lra.
    injection H1 as <-. injection H2 as <-.
    apply max_zero_monotone.
    pose proof (Rpower_above_one (1 + monthly_rate) total_months) as HF.
    pose proof (Rle_Rpower (1 + monthly_rate) p1 p2) as HA.
    apply quotient_monotone; [lra | ].
    apply Rmult_le_compat_l; lra.
Qed.

(** X13: equity never falls from a year to a later one: with plausible
    inputs, so in particular an interest rate and an appreciation rate that
    are not negative, and with a loan amount and a purchase price that are
    not negative, a later snapshot has a loan balance that is no greater, a
    home value that is no smaller and hence an equity that is no smaller. *)
Theorem equity_never_falls (inp : Inputs) :
  plausible inp ->
  0 <= inp.(original_loan_amount) -> 0 <= inp.(purchase_price) ->
  exists rows,
    projection inp = Some rows
    /\ map year rows = range 0 (inp.(years_to_hold) + 1)
    /\ forall s s',
         In s rows -> In s' rows -> (s.(year) <= s'.(year))%Z ->
         s'.(loan_balance) <= s.(loan_balance)
         /\ s.(home_value) <= s'.(home_value)
         /\ s.(equity) <= s'.(equity).
Proof.
  intros Hinp Hloan Hprice.
  destruct (year_loop_defined inp (range 0 (inp.(years_to_hold) + 1)) Hinp
              (initial_accumulators inp)) as [rows Hrows].
  fold (projection inp) in Hrows.
  exists rows. split; [assumption | ].
  split; [eapply year_loop_years; exact Hrows | ].
  pose proof (projection_closed_forms inp rows Hinp Hrows) as Hforms.
  rewrite Forall_forall in Hforms.
  intros s s' Hs Hs' Hle.
  destruct (Hforms s Hs) as (Hv & Hb & _ & He).
  destruct (Hforms s' Hs') as (Hv' & Hb' & _ & He').
  destruct Hinp as [Hi Ha _ _ Hn].
  assert (IZR (inp.(elapsed) + s.(year) * 12)
          <= IZR (inp.(elapsed) + s'.(year) * 12)) as Hmonths
    by (apply IZR_le; lia).
  assert (s'.(loan_balance) <= s.(loan_balance)) as Hbalance.
  { eapply balance_not_increasing with (5 := Hb) (6 := Hb');
      [assumption | unfold monthly_rate; lra | apply positive_term; assumption
      | assumption]. }
  assert (s.(home_value) <= s'.(home_value)) as Hvalue.
  { rewrite Hv, Hv'. apply Rmult_le_compat_l; [assumption | ].
    apply Rle_Rpower; lra. }
  split; [assumption | ]. split; [assumption | ].
  rewrite He, He'. lra.
Qed.

Lemma equity_never_falls_witness :
  exists rows,
    projection defaults = Some rows
    /\ map year rows = range 0 (defaults.(years_to_hold) + 1)
    /\ forall s s',
         In s rows -> In s' rows -> (s.(year) <= s'.(year))%Z ->
         s'.(loan_balance) <= s.(loan_balance)
         /\ s.(home_value) <= s'.(home_value)
         /\ s.(equity) <= s'.(equity).
Proof.
  apply (equity_never_falls defaults); [ | cbn; lra | cbn; lra].
  constructor; cbn; lra || lia.
Defined.

(** X14: the projection starts from the figures of the preamble: when at
    least one year is projected, the first snapshot is that of year 0, its
    home value is [current_home_value], its loan balance is
    [current_balance] and its equity their difference. *)
Theorem year_zero_is_today (inp : Inputs) :
  plausible inp -> (0 <= inp.(years_to_hold))%Z ->
  exists first later,
    projection inp = Some (first :: later)
    /\ first.(year) = 0%Z
    /\ current_home_value inp = Some first.(home_value)
    /\ current_balance inp = Some first.(loan_balance)
    /\ first.(equity) = first.(home_value) - first.(loan_balance).
Proof.
  intros Hinp Hhold.
  destruct (year_loop_defined inp (range 0 (inp.(years_to_hold) + 1)) Hinp
              (initial_accumulators inp)) as [rows Hrows].
  unfold projection.
  rewrite range_from_zero in * by assumption.
  apply year_loop_step in Hrows as Hstep.
  destruct Hstep as (first & later & -> & Hfirst & _).
  exists first, later. split; [assumption | ].
  destruct (year_body_closed_forms _ _ _ _ Hinp Hfirst) as (Hv & Hb & _ & He & _).
  replace (inp.(elapsed) + 0 * 12)%Z with inp.(elapsed) in Hv, Hb by lia.
  split; [eapply year_body_year; eassumption | ].
  split; [ | split; assumption].
  unfold current_home_value, years_owned.
  destruct Hinp as [_ Ha _ _ _].
  rewrite pow_positive_base by lra. cbn [Py.bind]. rewrite Hv. reflexivity.
Qed.

Lemma year_zero_is_today_witness :
  exists first later,
    projection defaults = Some (first :: later)
    /\ first.(year) = 0%Z
    /\ current_home_value defaults = Some first.(home_value)
    /\ current_balance defaults = Some first.(loan_balance)
    /\ first.(equity) = first.(home_value) - first.(loan_balance).
Proof.
  apply (year_zero_is_today defaults); [ | cbn; lia].
  constructor; cbn; lra || lia.
Defined.

(** X15: the capital-gains tax is bounded by the rate applied to the whole
    gain: with a capital-gains rate that is not negative, every year's tax
    owed is at least 0 and at most the positive part of the gain times the
    rate, so the after-tax proceeds never exceed the net sale proceeds. *)
Theorem capital_gains_tax_bounds (inp : Inputs) :
  plausible inp -> 0 <= inp.(capital_gains_tax) ->
  exists rows,
    projection inp = Some rows
    /\ Forall
         (fun s =>
            0 <= s.(capital_gains_tax_owed)
                 <= Rmax 0 s.(capital_gain) * (inp.(capital_gains_tax) / 100)
            /\ s.(net_after_tax_proceeds) <= s.(net_sale_proceeds))
         rows.
Proof.
  intros Hinp Hrate. unfold projection.
  destruct (year_loop_defined inp (range 0 (inp.(years_to_hold) + 1)) Hinp
              (initial_accumulators inp)) as [rows Hrows].
  exists rows. split; [assumption | ].
  eapply year_loop_Forall; [ | eassumption].
  intros acc y s Hs. open_body Hs.
  assert (0 <= inp.(capital_gains_tax) / 100) as Hrate' by lra.
  match goal with
  | |- context [Rgt_dec ?g 0] =>
      set (gain := g) in *; destruct (Rgt_dec gain 0) as [G | G]
  end.
  - rewrite (Rmax_right 0 gain) by lra.
    destruct (inp.(is_primary_residence) && (y <=? 3)%Z).
    + unfold Py.max. destruct (Rlt_dec 0 (gain - 500000)); nra.
    + nra.
  - rewrite (Rmax_left 0 gain) by lra. lra.
Qed.

Lemma capital_gains_tax_bounds_witness :
  exists rows,
    projection defaults = Some rows
    /\ Forall
         (fun s =>
            0 <= s.(capital_gains_tax_owed)
                 <= Rmax 0 s.(capital_gain) * (defaults.(capital_gains_tax) / 100)
            /\ s.(net_after_tax_proceeds) <= s.(net_sale_proceeds))
         rows.
Proof.
  apply (capital_gains_tax_bounds defaults); [ | cbn; lra].
  constructor; cbn; lra || lia.
Defined.

(** X16: a negative horizon projects nothing and raises nothing: with
    [years_to_hold < 0] the range of years is empty and the loop returns no
    snapshot, whatever the other inputs are. *)
Theorem projection_of_negative_horizon (inp : Inputs) :
  (inp.(years_to_hold) < 0)%Z -> projection inp = Some [].
Proof.
  intros Hhold. unfold projection.
  rewrite range_empty by assumption. reflexivity.
Qed.

Lemma projection_of_negative_horizon_witness :
  projection
    {| purchase_price := 400000; original_loan_amount := 320000;
       interest_rate := 6.5; monthly_pi := 2023; monthly_hoa := 150;
       monthly_taxes := 350; monthly_insurance := 150;
       monthly_maintenance := 200; rental_price := 2800;
       annual_rent_increase := 3; property_mgmt_fee := 10;
       costs_to_rent := 5000; rental_tax_rate := 22; home_appreciation := 3;
       selling_fees := 6; costs_to_sell := 10000; capital_gains_tax := 15;
       investment_return := 7; years_to_hold := -1;
       is_primary_residence := true; total_loan_months := 0;
       elapsed := 49 |} = Some [].
Proof. apply projection_of_negative_horizon. cbn. lia. Defined.

(** ** The sanity checks: outcomes *)

Lemma gtb_true (a b : R) : gtb a b = true <-> a > b.
Proof.
  unfold gtb. destruct (Rgt_dec a b); split; intros H;
    solve [assumption | reflexivity | discriminate | contradiction].
Qed.

Lemma ltb_true (a b : R) : ltb a b = true <-> a < b.
Proof.
  unfold ltb. destruct (Rlt_dec a b); split; intros H;
    solve [assumption | reflexivity | discriminate | contradiction].
Qed.

Lemma Rpower_one_base (x : R) : Rpower 1 x = 1.
Proof. unfold Rpower. rewrite ln_1, Rmult_0_r, exp_0. reflexivity. Qed.

(** With plausible inputs the checks run to their end; their outcome in terms
    of the three balances and of the powers. *)
Lemma sanity_checks_outcome (inp : Inputs) :
  plausible inp ->
  exists bal_year_0 bal_year_5 bal_year_10,
    calculate_remaining_balance inp.(original_loan_amount) (monthly_rate inp)
      (IZR inp.(total_loan_months)) (IZR inp.(elapsed)) = Some bal_year_0
    /\ calculate_remaining_balance inp.(original_loan_amount) (monthly_rate inp)
         (IZR inp.(total_loan_months)) (IZR (inp.(elapsed) + 60))
       = Some bal_year_5
    /\ calculate_remaining_balance inp.(original_loan_amount) (monthly_rate inp)
         (IZR inp.(total_loan_months)) (IZR (inp.(elapsed) + 120))
       = Some bal_year_10
    /\ sanity_checks inp
       = Some {|
           loan_balance_decreasing :=
             gtb bal_year_0 bal_year_5 && gtb bal_year_5 bal_year_10;
           home_value_increasing :=
             ltb (inp.(purchase_price)
                  * Rpower (1 + inp.(home_appreciation) / 100)
                      (IZR inp.(elapsed) / 12))
                 (inp.(purchase_price)
                  * Rpower (1 + inp.(home_appreciation) / 100)
                      (IZR (inp.(elapsed) + 60) / 12))
             && ltb (inp.(purchase_price)
                     * Rpower (1 + inp.(home_appreciation) / 100)
                         (IZR (inp.(elapsed) + 60) / 12))
                    (inp.(purchase_price)
                     * Rpower (1 + inp.(home_appreciation) / 100)
                         (IZR (inp.(elapsed) + 120) / 12));
           equity_increasing :=
             ltb (inp.(purchase_price)
                  * Rpower (1 + inp.(home_appreciation) / 100)
                      (IZR inp.(elapsed) / 12) - bal_year_0)
                 (inp.(purchase_price)
                  * Rpower (1 + inp.(home_appreciation) / 100)
                      (IZR (inp.(elapsed) + 60) / 12) - bal_year_5)
             && ltb (inp.(purchase_price)
                     * Rpower (1 + inp.(home_appreciation) / 100)
                         (IZR (inp.(elapsed) + 60) / 12) - bal_year_5)
                    (inp.(purchase_price)
                     * Rpower (1 + inp.(home_appreciation) / 100)
                         (IZR (inp.(elapsed) + 120) / 12) - bal_year_10);
           rent_increasing :=
             ltb inp.(rental_price)
                 (inp.(rental_price)
                  * Rpower (1 + inp.(annual_rent_increase) / 100) 5)
             && ltb (inp.(rental_price)
                     * Rpower (1 + inp.(annual_rent_increase) / 100) 5)
                    (inp.(rental_price)
                     * Rpower (1 + inp.(annual_rent_increase) / 100) 10);
           positive_cash_flow :=
             gtb (inp.(rental_price) * 12)
                 (monthly_ownership_cost inp * 12
                  + inp.(rental_price) * 12 * (inp.(property_mgmt_fee) / 100))
         |}.
Proof.
  intros Hinp.
  destruct (balance_defined inp (IZR inp.(elapsed)) Hinp) as [b0 Hb0].
  destruct (balance_defined inp (IZR (inp.(elapsed) + 60)) Hinp) as [b5 Hb5].
  destruct (balance_defined inp (IZR (inp.(elapsed) + 120)) Hinp) as [b10 Hb10].
  exists b0, b5, b10. repeat (split; [assumption | ]).
  destruct Hinp as [Hi Ha Hr Hv Hn].
  cbv beta zeta delta [sanity_checks].
  rewrite Hb0, Hb5, Hb10. cbn [Py.bind].
  rewrite !pow_positive_base by lra. reflexivity.
Qed.

(** At a positive rate the balance is positive exactly before the end of the
    term, and falls strictly from any month before the end of the term. *)
Lemma balance_positive_before_term (principal monthly_rate total_months p b : R) :
  0 < principal -> 0 < monthly_rate -> 0 < total_months ->
  calculate_remaining_balance principal monthly_rate total_months p = Some b ->
  (0 < b <-> p < total_months).
Proof.
  intros HP Hr Hn H.
  rewrite balance_positive_rate in H by assumption. injection H as <-.
  pose proof (Rpower_above_one (1 + monthly_rate) total_months) as HF.
  set (F := Rpower (1 + monthly_rate) total_months) in *.
  assert (0 < / (F - 1)) as Hinv by (apply Rinv_0_lt_compat; lra).
  split.
  - intros Hb. destruct (Rlt_dec p total_months) as [L | L]; [assumption | ].
    pose proof (Rle_Rpower (1 + monthly_rate) total_months p) as HA.
    fold F in HA.
    rewrite max_zero_of_not_positive in Hb; [lra | ].
    apply unclamped_quotient_sign; lra.
  - intros Hp.
    pose proof (Rpower_lt (1 + monthly_rate) p total_months) as HA.
    fold F in HA.
    rewrite max_zero_of_not_negative by (apply unclamped_quotient_sign; lra).
    unfold Rdiv. apply Rmult_lt_0_compat; [ | assumption].
    apply Rmult_lt_0_compat; lra.
Qed.

Lemma balance_falls_before_term (principal monthly_rate total_months p1 p2 b1 b2 : R) :
  0 < principal -> 0 < monthly_rate -> 0 < total_months ->
  p1 < p2 -> p1 < total_months ->
  calculate_remaining_balance principal monthly_rate total_months p1 = Some b1 ->
  calculate_remaining_balance principal monthly_rate total_months p2 = Some b2 ->
  b2 < b1.
Proof.
  intros HP Hr Hn Hp Hp1 H1 H2.
  pose proof (proj2 (balance_positive_before_term _ _ _ _ _ HP Hr Hn H1) Hp1)
    as Hb1.
  rewrite balance_positive_rate in H1, H2 by assumption.
  injection H1 as <-. injection H2 as <-.
  pose proof (Rpower_above_one (1 + monthly_rate) total_months) as HF.
  pose proof (Rpower_lt (1 + monthly_rate) p1 p2) as HA.
  pose proof (Rpower_lt (1 + monthly_rate) p1 total_months) as HA1.
  set (F := Rpower (1 + monthly_rate) total_months) in *.
  set (A1 := Rpower (1 + monthly_rate) p1) in *.
  set (A2 := Rpower (1 + monthly_rate) p2) in *.
  assert (0 < / (F - 1)) as Hinv by (apply Rinv_0_lt_compat; lra).
  assert (principal * (F - A2) / (F - 1) < principal * (F - A1) / (F - 1)) as Hq.
  { unfold Rdiv. apply Rmult_lt_compat_r; [assumption | ].
    apply Rmult_lt_compat_l; lra. }
  rewrite (max_zero_of_not_negative (principal * (F - A1) / (F - 1))) in *
    by (apply unclamped_quotient_sign; lra).
  unfold Py.max. destruct (Rlt_dec 0 (principal * (F - A2) / (F - 1))); lra.
Qed.

(** X17: check 1 (loan balance decreasing) passes exactly when the loan is
    not yet paid off five years ahead: at a positive interest rate and loan
    amount the check runs and its outcome is PASS if and only if
    [elapsed + 60 < total_loan_months]; a loan paid off by then fails the
    check, its balance staying at 0. *)
Theorem loan_balance_check_outcome (inp : Inputs) :
  plausible inp -> 0 < inp.(interest_rate) -> 0 < inp.(original_loan_amount) ->
  exists checks,
    sanity_checks inp = Some checks
    /\ (checks.(loan_balance_decreasing) = true
        <-> (inp.(elapsed) + 60 < inp.(total_loan_months))%Z).
Proof.
  intros Hinp Hi HP.
  destruct (sanity_checks_outcome inp Hinp)
    as (b0 & b5 & b10 & Hb0 & Hb5 & Hb10 & Hchecks).
  eexists. split; [exact Hchecks | ].
  cbn [loan_balance_decreasing].
  destruct Hinp as [_ _ _ _ Hn].
  pose proof (positive_term _ Hn) as Hn'.
  assert (0 < monthly_rate inp) as Hr by (unfold monthly_rate; lra).
  rewrite andb_true_iff, !gtb_true.
  pose proof (balance_positive_before_term _ _ _ _ _ HP Hr Hn' Hb5) as Hpos5.
  split.
  - intros [_ H510].
    assert (0 <= b10) as H10.
    { rewrite balance_positive_rate in Hb10 by assumption.
      injection Hb10 as <-. apply max_zero_not_negative. }
    apply lt_IZR. apply Hpos5. lra.
  - intros Hlt. apply IZR_lt in Hlt.
    assert (IZR inp.(elapsed) < IZR (inp.(elapsed) + 60)) as H05
      by (apply IZR_lt; lia).
    assert (IZR (inp.(elapsed) + 60) < IZR (inp.(elapsed) + 120)) as H510
      by (apply IZR_lt; lia).
    split.
    + apply (balance_falls_before_term _ _ _ _ _ _ _ HP Hr Hn' H05); 
        [lra | assumption | assumption].
    + apply (balance_falls_before_term _ _ _ _ _ _ _ HP Hr Hn' H510);
        assumption.
Qed.

Lemma loan_balance_check_outcome_witness :
  exists checks,
    sanity_checks defaults = Some checks
    /\ (checks.(loan_balance_decreasing) = true
        <-> (defaults.(elapsed) + 60 < defaults.(total_loan_months))%Z).
Proof.
  apply (loan_balance_check_outcome defaults); [ | cbn; lra | cbn; lra].
  constructor; cbn; lra || lia.
Defined.

(** X18: check 2 (home value increasing) passes exactly when the purchase
    price and the appreciation rate are both positive; at an appreciation of
    0 the three home values are equal and the check fails. *)
Theorem home_value_check_outcome (inp : Inputs) :
  plausible inp ->
  exists checks,
    sanity_checks inp = Some checks
    /\ (checks.(home_value_increasing) = true
        <-> 0 < inp.(purchase_price) /\ 0 < inp.(home_appreciation)).
Proof.
  intros Hinp.
  destruct (sanity_checks_outcome inp Hinp)
    as (b0 & b5 & b10 & _ & _ & _ & Hchecks).
  eexists. split; [exact Hchecks | ].
  cbn [home_value_increasing].
  destruct Hinp as [_ Ha _ _ _].
  rewrite andb_true_iff, !ltb_true.
  assert (IZR inp.(elapsed) / 12 < IZR (inp.(elapsed) + 60) / 12) as H05
    by (rewrite plus_IZR; lra).
  assert (IZR (inp.(elapsed) + 60) / 12 < IZR (inp.(elapsed) + 120) / 12) as H510
    by (rewrite !plus_IZR; lra).
  destruct (Req_dec_T inp.(home_appreciation) 0) as [E | N].
  - rewrite E. replace (1 + 0 / 100) with 1 by lra.
    rewrite !Rpower_one_base. split; intros H; lra.
  - pose proof (Rpower_lt (1 + inp.(home_appreciation) / 100) _ _
                  ltac:(lra) H05) as Hg05.
    pose proof (Rpower_lt (1 + inp.(home_appreciation) / 100) _ _
                  ltac:(lra) H510) as Hg510.
    split.
    + intros [Hlt _]. split; [nra | lra].
    + intros [Hprice _]. split; apply Rmult_lt_compat_l; assumption.
Qed.

Lemma home_value_check_outcome_witness :
  exists checks,
    sanity_checks defaults = Some checks
    /\ (checks.(home_value_increasing) = true
        <-> 0 < defaults.(purchase_price) /\ 0 < defaults.(home_appreciation)).
Proof.
  apply (home_value_check_outcome defaults).
  constructor; cbn; lra || lia.
Defined.

(** X19: check 3 (equity increasing) passes whenever the home gains value:
    with a positive purchase price and appreciation rate and a loan amount
    that is not negative the outcome is PASS, also for a loan that is already
    paid off. *)
Theorem equity_check_passes (inp : Inputs) :
  plausible inp -> 0 <= inp.(original_loan_amount) ->
  0 < inp.(purchase_price) -> 0 < inp.(home_appreciation) ->
  exists checks,
    sanity_checks inp = Some checks
    /\ checks.(equity_increasing) = true.
Proof.
  intros Hinp HP Hprice Ha.
  destruct (sanity_checks_outcome inp Hinp)
    as (b0 & b5 & b10 & Hb0 & Hb5 & Hb10 & Hchecks).
  eexists. split; [exact Hchecks | ].
  cbn [equity_increasing].
  destruct Hinp as [Hi _ _ _ Hn].
  pose proof (positive_term _ Hn) as Hn'.
  assert (0 <= monthly_rate inp) as Hr by (unfold monthly_rate; lra).
  assert (IZR inp.(elapsed) / 12 < IZR (inp.(elapsed) + 60) / 12) as H05
    by (rewrite plus_IZR; lra).
  assert (IZR (inp.(elapsed) + 60) / 12 < IZR (inp.(elapsed) + 120) / 12) as H510
    by (rewrite !plus_IZR; lra).
  pose proof (Rpower_lt (1 + inp.(home_appreciation) / 100) _ _
                ltac:(lra) H05) as Hg05.
  pose proof (Rpower_lt (1 + inp.(home_appreciation) / 100) _ _
                ltac:(lra) H510) as Hg510.
  assert (b5 <= b0) as Hb05.
  { apply (balance_not_increasing _ _ _ _ _ _ _ HP Hr Hn') with (2 := Hb0) (3 := Hb5).
    apply IZR_le. lia. }
  assert (b10 <= b5) as Hb510.
  { apply (balance_not_increasing _ _ _ _ _ _ _ HP Hr Hn') with (2 := Hb5) (3 := Hb10).
    apply IZR_le. lia. }
  apply andb_true_iff. rewrite !ltb_true.
  split; nra.
Qed.

Lemma equity_check_passes_witness :
  exists checks,
    sanity_checks defaults = Some checks
    /\ checks.(equity_increasing) = true.
Proof.
  apply (equity_check_passes defaults); [ | cbn; lra | cbn; lra | cbn; lra].
  constructor; cbn; lra || lia.
Defined.

(** X20: check 4 (rent increasing) passes exactly when the rent and the
    annual rent increase are both positive; at an increase of 0 the three
    rents are equal and the check fails. *)
Theorem rent_check_outcome (inp : Inputs) :
  plausible inp ->
  exists checks,
    sanity_checks inp = Some checks
    /\ (checks.(rent_increasing) = true
        <-> 0 < inp.(rental_price) /\ 0 < inp.(annual_rent_increase)).
Proof.
  intros Hinp.
  destruct (sanity_checks_outcome inp Hinp)
    as (b0 & b5 & b10 & _ & _ & _ & Hchecks).
  eexists. split; [exact Hchecks | ].
  cbn [rent_increasing].
  destruct Hinp as [_ _ Hr _ _].
  rewrite andb_true_iff, !ltb_true.
  destruct (Req_dec_T inp.(annual_rent_increase) 0) as [E | N].
  - rewrite E. replace (1 + 0 / 100) with 1 by lra.
    rewrite !Rpower_one_base. split; intros H; lra.
  - pose proof (Rpower_above_one (1 + inp.(annual_rent_increase) / 100) 5
                  ltac:(lra) ltac:(lra)) as H5.
    pose proof (Rpower_lt (1 + inp.(annual_rent_increase) / 100) 5 10
                  ltac:(lra) ltac:(lra)) as H510.
    split.
    + intros [Hlt _]. split; [nra | lra].
    + intros [Hrent _]. split; [nra | ].
      apply Rmult_lt_compat_l; assumption.
Qed.

Lemma rent_check_outcome_witness :
  exists checks,
    sanity_checks defaults = Some checks
    /\ (checks.(rent_increasing) = true
        <-> 0 < defaults.(rental_price) /\ 0 < defaults.(annual_rent_increase)).
Proof.
  apply (rent_check_outcome defaults).
  constructor; cbn; lra || lia.
Defined.

(** X21: check 5 looks at year 0 of the projection: the figures it calls
    year 1 use the rent before any increase, so the check reports a positive
    cash flow exactly when the gross rental profit of the snapshot of year 0
    is positive. *)
Theorem cash_flow_check_is_year_zero (inp : Inputs) :
  plausible inp -> (0 <= inp.(years_to_hold))%Z ->
  exists checks first later,
    sanity_checks inp = Some checks
    /\ projection inp = Some (first :: later)
    /\ first.(year) = 0%Z
    /\ (checks.(positive_cash_flow) = true <-> 0 < first.(gross_rental_profit)).
Proof.
  intros Hinp Hhold.
  destruct (sanity_checks_outcome inp Hinp)
    as (b0 & b5 & b10 & _ & _ & _ & Hchecks).
  destruct (year_loop_defined inp (range 0 (inp.(years_to_hold) + 1)) Hinp
              (initial_accumulators inp)) as [rows Hrows].
  unfold projection.
  rewrite range_from_zero in * by assumption.
  apply year_loop_step in Hrows as Hstep.
  destruct Hstep as (first & later & -> & Hfirst & _).
  eexists. exists first, later.
  split; [exact Hchecks | ]. split; [assumption | ].
  split; [eapply year_body_year; eassumption | ].
  cbn [positive_cash_flow]. rewrite gtb_true.
  destruct Hinp as [_ _ Hr _ _].
  open_body Hfirst.
  rewrite pow_positive_base in E1 by lra. injection E1 as <-.
  rewrite Rpower_O by lra.
  split; intros H; lra.
Qed.

Lemma cash_flow_check_is_year_zero_witness :
  exists checks first later,
    sanity_checks defaults = Some checks
    /\ projection defaults = Some (first :: later)
    /\ first.(year) = 0%Z
    /\ (checks.(positive_cash_flow) = true <-> 0 < first.(gross_rental_profit)).
Proof.
  apply (cash_flow_check_is_year_zero defaults); [ | cbn; lia].
  constructor; cbn; lra || lia.
Defined.

(** ** The whole script: a complete run *)

(** X22: with plausible inputs and a positive interest rate the script runs
    to its end: it prints the current balance, payment and home value, an
    equity that is their difference, one snapshot for each year from 0 to
    [years_to_hold] and the outcome of the five checks. *)
Theorem script_completes (inp : Inputs) :
  plausible inp -> 0 < inp.(interest_rate) ->
  exists report,
    script inp = Some report
    /\ current_balance inp = Some report.(printed_balance)
    /\ calculated_payment inp = Some report.(printed_payment)
    /\ current_home_value inp = Some report.(printed_home_value)
    /\ report.(printed_equity)
       = report.(printed_home_value) - report.(printed_balance)
    /\ map year report.(printed_years) = range 0 (inp.(years_to_hold) + 1)
    /\ sanity_checks inp = Some report.(printed_checks).
Proof.
  intros Hinp Hi.
  destruct (balance_defined inp (IZR inp.(elapsed)) Hinp) as [balance Hbalance].
  fold (current_balance inp) in Hbalance.
  pose proof (calculated_payment_positive_rate inp Hi (term_positive _ Hinp))
    as Hpayment.
  assert (current_home_value inp
          = Some (inp.(purchase_price)
                  * Rpower (1 + inp.(home_appreciation) / 100) (years_owned inp)))
    as Hvalue.
  { unfold current_home_value.
    rewrite pow_positive_base by (destruct Hinp; lra). reflexivity. }
  destruct (year_loop_defined inp (range 0 (inp.(years_to_hold) + 1)) Hinp
              (initial_accumulators inp)) as [rows Hrows].
  fold (projection inp) in Hrows.
  destruct (sanity_checks_outcome inp Hinp)
    as (b0 & b5 & b10 & _ & _ & _ & Hchecks).
  eexists. split.
  - unfold script.
    rewrite Hbalance, Hpayment, Hvalue, Hrows, Hchecks. reflexivity.
  - cbn [printed_balance printed_payment printed_home_value printed_equity
         printed_years printed_checks].
    repeat split; try assumption; try reflexivity.
    eapply year_loop_years. exact Hrows.
Qed.

Lemma script_completes_witness :
  exists report,
    script defaults = Some report
    /\ current_balance defaults = Some report.(printed_balance)
    /\ calculated_payment defaults = Some report.(printed_payment)
    /\ current_home_value defaults = Some report.(printed_home_value)
    /\ report.(printed_equity)
       = report.(printed_home_value) - report.(printed_balance)
    /\ map year report.(printed_years) = range 0 (defaults.(years_to_hold) + 1)
    /\ sanity_checks defaults = Some report.(printed_checks).
Proof.
  apply (script_completes defaults); [ | cbn; lra].
  constructor; cbn; lra || lia.
Defined.

(** ** The first balance on binary64 *)

Module Rounding.
Import PrimFloat.

(** C9 on binary64: for principal 100000, monthly rate 6.5/100/12 and 360
    months the call with no month paid returns 100000.00000000001, the float
    next above the principal, and not the principal: the quotient
    [principal * (factor - 1) / (factor - 1)] is rounded twice. *)
Lemma balance_at_start_rounded :
  B64.calculate_remaining_balance 100000 (6.5 / 100 / 12) 360 0
  = Some (100000 + 0x1p-36)%float
  /\ B64.calculate_remaining_balance 100000 (6.5 / 100 / 12) 360 0
     <> Some 100000%float.
Proof.
  assert (B64.calculate_remaining_balance 100000 (6.5 / 100 / 12) 360 0
          = Some (100000 + 0x1p-36)%float) as H
    by (vm_compute; reflexivity).
  split; [exact H | ].
  rewrite H. intros E.
  apply (f_equal (fun result =>
                    match result with
                    | Some balance => PrimFloat.eqb balance 100000
                    | None => true
                    end)) in E.
  vm_compute in E. discriminate E.
Qed.

(** At a rate of 0 the same call returns the principal itself. *)
Example balance_at_start_zero_rate_binary64 :
  B64.calculate_remaining_balance 100000 0 360 0 = Some 100000%float.
Proof. vm_compute. reflexivity. Qed.

End Rounding.
